(** * CPU usage monitor (Task2A/monitor.c): model and verified properties

    The monitor samples every process of the host once per second, turns the
    cumulative user/system tick counters of each process into per-sample
    deltas, attributes them to the owning user and finally prints a ranked
    per-user report.

    The C program is embedded shallowly:
    - [unsigned long long], [unsigned long], [uid_t], [int] are [Z] with the
      wrap-around of the C type written out ([wrap64], [wrap32], [to_int]);
    - a file read through [fgetc]/[fscanf]/[fgets] is the [list ascii] of the
      bytes still to be read, [None] when [fopen] fails;
    - the global arrays [users] and [proc_info] are lists whose length is
      [num_users] / [num_procs]; a pointer into an array is an index;
    - the C library ([isdigit], [isspace], [atoi], [fscanf], [fgets], [qsort])
      is modelled from the C standard, and from glibc where the standard
      leaves the result open (out-of-range conversions). *)

From Stdlib Require Import ZArith Ascii String List Lia.
From stdpp Require Import base tactics option list numbers sorting strings pretty.

Local Open Scope Z_scope.

(** ** C integer types *)

Module CInt.

Definition ULLONG_MOD : Z := 2 ^ 64.
Definition ULONG_MAX : Z := 2 ^ 64 - 1.
Definition LONG_MAX : Z := 2 ^ 63 - 1.
Definition LONG_MIN : Z := - 2 ^ 63.
Definition UINT_MOD : Z := 2 ^ 32.

(** Arithmetic in [unsigned long long] / [unsigned long] (both 64 bits). *)
Definition wrap64 (x : Z) : Z := x mod ULLONG_MOD.

(** Conversion to [unsigned int] / [uid_t]. *)
Definition wrap32 (x : Z) : Z := x mod UINT_MOD.

(** Conversion of a [long] to [int] (two's complement truncation). *)
Definition to_int (x : Z) : Z := (x + 2 ^ 31) mod 2 ^ 32 - 2 ^ 31.

(** [(uid_t)-1] *)
Definition UID_NONE : Z := wrap32 (-1).

End CInt.
Export CInt.

(** ** <ctype.h> and the number scanners of the C library *)

Module Libc.

Definition code (c : ascii) : Z := Z.of_N (N_of_ascii c).

Definition isdigit (c : ascii) : bool := (48 <=? code c) && (code c <=? 57).

(** space, \t, \n, \v, \f, \r *)
Definition isspace (c : ascii) : bool :=
  (code c =? 32) || ((9 <=? code c) && (code c <=? 13)).

Definition digit_val (c : ascii) : Z := code c - 48.

(** Whitespace directive of [scanf], also the leading-whitespace skip of
    [%d], [%u], [%lu] and of [strtol]. *)
Fixpoint skip_ws (s : list ascii) : list ascii :=
  match s with
  | c :: t => if isspace c then skip_ws t else s
  | [] => []
  end.

(** Consumes the longest run of decimal digits, accumulating its value. *)
Fixpoint scan_digits (acc : Z) (s : list ascii) : Z * list ascii :=
  match s with
  | c :: t => if isdigit c then scan_digits (acc * 10 + digit_val c) t else (acc, s)
  | [] => (acc, [])
  end.

(** Subject sequence of a decimal conversion: optional whitespace, optional
    sign, at least one digit.  Gives the sign, the magnitude and the unread
    input; [None] is a matching or input failure. *)
Definition scan_number (s : list ascii) : option (bool * Z * list ascii) :=
  let s1 := skip_ws s in
  let '(neg, s2) :=
    match s1 with
    | c :: t => if Ascii.eqb c "-" then (true, t)
                else if Ascii.eqb c "+" then (false, t)
                else (false, s1)
    | [] => (false, s1)
    end in
  match s2 with
  | c :: _ => if isdigit c
              then let '(v, s3) := scan_digits 0 s2 in Some (neg, v, s3)
              else None
  | [] => None
  end.

(** [strtol]: out-of-range magnitudes saturate. *)
Definition strtol_val (neg : bool) (v : Z) : Z :=
  let x := if neg then - v else v in
  Z.max LONG_MIN (Z.min LONG_MAX x).

(** [strtoul]: an out-of-range magnitude gives [ULONG_MAX]; a minus sign
    negates in the unsigned type. *)
Definition strtoul_val (neg : bool) (v : Z) : Z :=
  if ULONG_MAX <? v then ULONG_MAX
  else if neg then wrap64 (- v) else v.

(** The conversions used by monitor.c. *)
Inductive conv := conv_c | conv_d | conv_u | conv_lu.

Inductive directive :=
| dir_ws                 (* white space in the format *)
| dir_conv (c : conv).   (* %c, %d, %u, %lu *)

Definition scan_conv (c : conv) (s : list ascii) : option (Z * list ascii) :=
  match c with
  | conv_c => match s with
              | ch :: t => Some (code ch, t)
              | [] => None
              end
  | conv_d => '(neg, v, t) ← scan_number s; Some (to_int (strtol_val neg v), t)
  | conv_u => '(neg, v, t) ← scan_number s; Some (wrap32 (strtoul_val neg v), t)
  | conv_lu => '(neg, v, t) ← scan_number s; Some (strtoul_val neg v, t)
  end.

(** [fscanf]: runs the directives in order and stops at the first failure.
    The result is the list of values assigned so far (its length is the
    return value of [fscanf] whenever that is not [EOF]) and the unread
    input. *)
Fixpoint fscanf (fmt : list directive) (s : list ascii) : list Z * list ascii :=
  match fmt with
  | [] => ([], s)
  | dir_ws :: fmt' => fscanf fmt' (skip_ws s)
  | dir_conv c :: fmt' =>
      match scan_conv c s with
      | None => ([], s)
      | Some (v, s') => let '(vs, s'') := fscanf fmt' s' in (v :: vs, s'')
      end
  end.

(** [atoi(s)] is [(int) strtol(s, NULL, 10)]; no digits gives 0. *)
Definition atoi (s : string) : Z :=
  match scan_number (list_ascii_of_string s) with
  | Some (neg, v, _) => to_int (strtol_val neg v)
  | None => 0
  end.

(** [fgets(buf, n + 1, fp)]: at most [n] characters, stopping after a
    newline.  The caller tests for end of file before calling. *)
Fixpoint fgets (n : nat) (s : list ascii) : list ascii * list ascii :=
  match n, s with
  | S n', c :: t =>
      if Ascii.eqb c "010" then ([c], t)
      else let '(l, r) := fgets n' t in (c :: l, r)
  | _, _ => ([], s)
  end.

End Libc.
Export Libc.

#[global] Arguments isspace : simpl never.
#[global] Arguments isdigit : simpl never.
#[global] Arguments digit_val : simpl never.

(** ** Text helpers *)

Definition chars (s : string) : list ascii := list_ascii_of_string s.

(** ** The process status reader *)

Module Reader.

(** [is_pid_dir]: every character of the name is a digit. *)
Definition is_pid_dir (name : string) : bool := forallb isdigit (chars name).

(** [strncmp(line, "Uid:", 4) == 0] *)
Definition is_uid_line (line : list ascii) : bool :=
  bool_decide (take 4 line = chars "Uid:").

(** The [while (fgets(...))] loop of [get_process_uid].  Every call of
    [fgets] on a non-empty file consumes a character, so [length s]
    iterations always reach the end of the file. *)
Fixpoint uid_loop (fuel : nat) (s : list ascii) : Z :=
  match fuel, s with
  | S fuel', _ :: _ =>
      let '(line, rest) := fgets 255 s in
      if is_uid_line line then
        match scan_conv conv_u (drop 4 line) with
        | Some (uid, _) => uid
        | None => UID_NONE
        end
      else uid_loop fuel' rest
  | _, _ => UID_NONE
  end.

(** [get_process_uid], on the contents of /proc/<pid>/status. *)
Definition get_process_uid (status : option (list ascii)) : Z :=
  match status with
  | None => UID_NONE
  | Some s => uid_loop (length s) s
  end.

(** One store into [comm[256]]: kept only inside the parentheses and while
    the buffer has room. *)
Definition comm_store (depth : Z) (comm : list ascii) (c : ascii) : list ascii :=
  if (0 <? depth) && (Z.of_nat (length comm) <? 255) then comm ++ [c] else comm.

(** The [fgetc] loop reading the command name; [depth] is [paren_depth].
    Returns the contents of [comm] and the unread input. *)
Fixpoint comm_loop (depth : Z) (comm : list ascii) (s : list ascii)
  : list ascii * list ascii :=
  match s with
  | [] => (comm, [])
  | c :: t =>
      if Ascii.eqb c "(" then
        let depth := depth + 1 in
        if depth =? 1 then comm_loop depth comm t
        else comm_loop depth (comm_store depth comm c) t
      else if Ascii.eqb c ")" then
        let depth := depth - 1 in
        if depth =? 0 then (comm, t)
        else comm_loop depth (comm_store depth comm c) t
      else comm_loop depth (comm_store depth comm c) t
  end.

(** ["%d "] *)
Definition pid_fmt : list directive := [dir_conv conv_d; dir_ws].

(** [" %c %d %d %d %d %d %u %lu %lu %lu %lu %lu %lu"] *)
Definition fields_fmt : list directive :=
  [dir_ws; dir_conv conv_c; dir_ws; dir_conv conv_d; dir_ws; dir_conv conv_d;
   dir_ws; dir_conv conv_d; dir_ws; dir_conv conv_d; dir_ws; dir_conv conv_d;
   dir_ws; dir_conv conv_u; dir_ws; dir_conv conv_lu; dir_ws; dir_conv conv_lu;
   dir_ws; dir_conv conv_lu; dir_ws; dir_conv conv_lu; dir_ws; dir_conv conv_lu;
   dir_ws; dir_conv conv_lu].

(** The second [fscanf] and the final assignments: all 13 conversions must
    succeed; [utime_val] and [stime_val] are the last two. *)
Definition read_fields (s : list ascii) : option (Z * Z) :=
  match fst (fscanf fields_fmt s) with
  | [state; ppid; pgrp; session; tty_nr; tpgid; flags;
     minflt; cminflt; majflt; cmajflt; utime_val; stime_val] =>
      Some (utime_val, stime_val)
  | _ => None
  end.

(** [read_proc_cpu_time], on the contents of /proc/<pid>/stat.  [None] is
    the return value -1. *)
Definition read_proc_cpu_time (stat : option (list ascii)) : option (Z * Z) :=
  match stat with
  | None => None
  | Some s =>
      match fscanf pid_fmt s with
      | ([pid_read], s1) =>
          let '(comm, s2) := comm_loop 0 [] s1 in
          read_fields s2
      | _ => None
      end
  end.

End Reader.
Export Reader.

(** ** The two tables and one sample *)

Module Monitor.

Definition MAX_USERS : Z := 1024.
Definition MAX_PROCS : Z := 65536.

(** [user_cpu_t] *)
Record user_cpu_t := {
  uid : Z;              (* uid_t *)
  username : string;    (* char[64] *)
  cpu_time : Z          (* unsigned long long, in clock ticks *)
}.

(** [proc_info_t]; its fields [pid] and [uid] are [pi_pid] and [pi_uid]. *)
Record proc_info_t := {
  pi_pid : Z;
  pi_uid : Z;
  last_utime : Z;
  last_stime : Z;
  valid : bool
}.

(** The global arrays; [num_users] and [num_procs] are the lengths. *)
Record state := {
  users : list user_cpu_t;
  proc_info : list proc_info_t
}.

Definition num_users (st : state) : Z := Z.of_nat (length (users st)).
Definition num_procs (st : state) : Z := Z.of_nat (length (proc_info st)).

(** Program start: both tables empty. *)
Definition initial_state : state := {| users := []; proc_info := [] |}.

(** One entry returned by [readdir] on /proc, together with what the two
    per-process files give when they are opened for this entry. *)
Record dirent := {
  d_name : string;
  status : option (list ascii);   (* /proc/<pid>/status, [None]: fopen fails *)
  stat : option (list ascii)      (* /proc/<pid>/stat,   [None]: fopen fails *)
}.

Section WithPasswd.

(** [getpwuid(uid)->pw_name], [None] when there is no entry. *)
Context (getpwuid : Z → option string).

Definition get_username (u : Z) : option string := getpwuid u.

(** The name written into a new entry: [strncpy] of at most 63
    characters, or the uid in decimal. *)
Definition new_username (u : Z) : string :=
  match get_username u with
  | Some name => String.substring 0 63 name
  | None => pretty u
  end.

(** [find_or_create_user]: the table afterwards and the index of the
    entry, [None] for the NULL result. *)
Definition find_or_create_user (us : list user_cpu_t) (u : Z)
  : list user_cpu_t * option nat :=
  match list_find (λ x, uid x = u) us with
  | Some (i, _) => (us, Some i)
  | None =>
      if MAX_USERS <=? Z.of_nat (length us) then (us, None)
      else (us ++ [{| uid := u; username := new_username u; cpu_time := 0 |}],
            Some (length us))
  end.

(** [find_proc_info]: index and contents of the first valid entry of
    that pid. *)
Definition find_proc_info (ps : list proc_info_t) (p : Z)
  : option (nat * proc_info_t) :=
  list_find (λ x, pi_pid x = p ∧ valid x = true) ps.

(** [add_proc_info]; the callers ignore the returned pointer. *)
Definition add_proc_info (ps : list proc_info_t) (p u utime stime : Z)
  : list proc_info_t :=
  if MAX_PROCS <=? Z.of_nat (length ps) then ps
  else ps ++ [{| pi_pid := p; pi_uid := u; last_utime := utime;
                 last_stime := stime; valid := true |}].

(** [user->cpu_time += delta_utime + delta_stime] *)
Definition add_cpu_time (d : Z) (x : user_cpu_t) : user_cpu_t :=
  {| uid := uid x; username := username x;
     cpu_time := wrap64 (cpu_time x + d) |}.

(** Lines 271-293 of [scan_processes]: the accounting for one process
    whose uid [u] and counters were read successfully.  The guarded
    subtractions cannot wrap. *)
Definition account (st : state) (p u utime stime : Z) : state :=
  match find_proc_info (proc_info st) p with
  | None =>
      {| proc_info := add_proc_info (proc_info st) p u utime stime;
         users := fst (find_or_create_user (users st) u) |}
  | Some (i, pi) =>
      let delta_utime := if last_utime pi <=? utime then utime - last_utime pi else 0 in
      let delta_stime := if last_stime pi <=? stime then stime - last_stime pi else 0 in
      let '(us, user) := find_or_create_user (users st) u in
      let us :=
        match user with
        | Some j => alter (add_cpu_time (wrap64 (delta_utime + delta_stime))) j us
        | None => us
        end in
      {| proc_info :=
           <[i := {| pi_pid := pi_pid pi; pi_uid := pi_uid pi;
                     last_utime := utime; last_stime := stime;
                     valid := valid pi |}]> (proc_info st);
         users := us |}
  end.

(** The reads and the three [continue] guards shared by both loops:
    pid, uid and counters of an entry that is not skipped. *)
Definition observe (e : dirent) : option (Z * Z * Z * Z) :=
  if negb (is_pid_dir (d_name e)) then None
  else
    let p := atoi (d_name e) in
    let u := get_process_uid (status e) in
    if u =? UID_NONE then None
    else
      match read_proc_cpu_time (stat e) with
      | None => None
      | Some (utime, stime) => Some (p, u, utime, stime)
      end.

(** Body of the [readdir] loop of [scan_processes]. *)
Definition scan_entry (st : state) (e : dirent) : state :=
  match observe e with
  | None => st
  | Some (p, u, utime, stime) => account st p u utime stime
  end.

(** Body of the [readdir] loop of [initialize]. *)
Definition init_entry (st : state) (e : dirent) : state :=
  match observe e with
  | None => st
  | Some (p, u, utime, stime) =>
      {| proc_info := add_proc_info (proc_info st) p u utime stime;
         users := fst (find_or_create_user (users st) u) |}
  end.

(** [scan_processes] and [initialize]; [None] is a failing [opendir],
    reported with [perror]. *)
Definition scan_processes (st : state) (dir : option (list dirent))
  : state * list string :=
  match dir with
  | None => (st, ["opendir /proc"%string])
  | Some es => (foldl scan_entry st es, [])
  end.

Definition initialize (st : state) (dir : option (list dirent))
  : state * list string :=
  match dir with
  | None => (st, ["opendir /proc"%string])
  | Some es => (foldl init_entry st es, [])
  end.

End WithPasswd.

End Monitor.
Export Monitor.

(** ** The report *)

Module Report.

(** [compare_users]: descending by [cpu_time]. *)
Definition compare_users (ua ub : user_cpu_t) : Z :=
  if cpu_time ua <? cpu_time ub then 1
  else if cpu_time ub <? cpu_time ua then -1
  else 0.

(** [ticks_to_ms]: the product is computed in [unsigned long long]; the
    [long] divisor [clk_tck] is converted to that type. *)
Definition ticks_to_ms (clk_tck ticks : Z) : Z :=
  wrap64 (ticks * 1000) / wrap64 clk_tck.

(** A comparison function is consistent when it orders the elements
    totally and transitively. *)
Definition consistent {A} (compar : A → A → Z) : Prop :=
  (∀ a b, compar a b ≤ 0 ∨ compar b a ≤ 0) ∧
  (∀ a b c, compar a b ≤ 0 → compar b c ≤ 0 → compar a c ≤ 0).

(** [qsort] of the C library: some rearrangement of the array that is in
    ascending order for the comparison function; the order of elements
    that compare equal is left open. *)
Class Qsort := {
  qsort {A} (compar : A → A → Z) (base : list A) : list A;
  qsort_perm {A} (compar : A → A → Z) base : qsort compar base ≡ₚ base;
  qsort_sorted {A} (compar : A → A → Z) base :
    consistent compar →
    StronglySorted (λ a b, compar a b ≤ 0) (qsort compar base)
}.

(** What [printf] writes, line by line. *)
Inductive line :=
| Header                                   (* "Rank User           CPU Time (milliseconds)" *)
| Rule                                     (* "----------------------------------------" *)
| Row (rank : Z) (name : string) (ms : Z)  (* "%-4d %-14s %llu" *)
| NoUsage.                                 (* "(No CPU usage recorded)" *)

(** Left-justified field of [printf]: padded with spaces up to [width]. *)
Definition pad (width : nat) (s : string) : string :=
  (s +:+ string_of_list_ascii (replicate (width - String.length s) " "%char))%string.

Definition render (l : line) : string :=
  match l with
  | Header => "Rank User           CPU Time (milliseconds)"
  | Rule => "----------------------------------------"
  | Row rank name ms => pad 4 (pretty rank) +:+ " " +:+ pad 14 name +:+ " " +:+ pretty ms
  | NoUsage => "(No CPU usage recorded)"
  end%string.

Section WithClock.

Context `{Qsort} (clk_tck : Z).

(** The printing loop of [print_summary], entered with the current
    [rank]; gives the rows and the final [rank]. *)
Fixpoint print_rows (rank : Z) (us : list user_cpu_t) : list line * Z :=
  match us with
  | [] => ([], rank)
  | u :: us' =>
      if 0 <? cpu_time u then
        let rank := rank + 1 in
        let '(rows, r) := print_rows rank us' in
        (Row rank (username u) (ticks_to_ms clk_tck (cpu_time u)) :: rows, r)
      else print_rows rank us'
  end.

(** [print_summary]: the sorted table and the lines written. *)
Definition print_summary (us : list user_cpu_t) : list user_cpu_t * list line :=
  let us := qsort compare_users us in
  let '(rows, rank) := print_rows 0 us in
  (us, [Header; Rule] ++ rows ++ (if rank =? 0 then [NoUsage] else [])).

End WithClock.

End Report.
Export Report.

(** ** The program *)

Module Main.

(** The host as the program sees it. *)
Record host := {
  sysconf_clk_tck : Z;                  (* sysconf(_SC_CLK_TCK), -1 on failure *)
  getpwuid : Z → option string;
  proc : nat → option (list dirent)     (* /proc at the k-th scan; scan 0 is the baseline *)
}.

Record outcome := {
  exit_status : Z;
  stderr : list string;
  stdout : list line;
  scans : nat;                          (* calls of scan_processes *)
  final : state
}.

Section WithHost.

Context `{Qsort} (h : host).

(** The monitor loop with [n] iterations left: [sleep(1)], then one scan. *)
Fixpoint monitor_loop (n : nat) (done : nat) (st : state) (err : list string)
  : state * list string * nat :=
  match n with
  | O => (st, err, done)
  | S n' =>
      let '(st', e) := scan_processes (getpwuid h) st (proc h (S done)) in
      monitor_loop n' (S done) st' (err ++ e)
  end.

Definition main (argv : list string) : outcome :=
  match argv with
  | [argv0; arg] =>
      let duration := atoi arg in
      if duration <=? 0 then
        {| exit_status := 1;
           stderr := ["Error: duration must be a positive integer"%string];
           stdout := []; scans := 0; final := initial_state |}
      else
        let clk_tck := sysconf_clk_tck h in
        let clk_tck := if clk_tck <=? 0 then 100 else clk_tck in
        let '(st, e0) := initialize (getpwuid h) initial_state (proc h 0%nat) in
        let '(st, err, n) := monitor_loop (Z.to_nat duration) 0 st e0 in
        let '(us, out) := print_summary clk_tck (users st) in
        {| exit_status := 0; stderr := err; stdout := out; scans := n;
           final := {| users := us; proc_info := proc_info st |} |}
  | _ =>
      {| exit_status := 1;
         stderr := [("Usage: " +:+ default "(null)" (head argv)
                     +:+ " <duration_seconds>")%string];
         stdout := []; scans := 0; final := initial_state |}
  end.

End WithHost.

End Main.
Export Main.

(** ** A sorting routine that meets the [qsort] contract *)

Module MergeQsort.

Definition before {A} (compar : A → A → Z) : relation A := λ a b, compar a b ≤ 0.

#[export] Instance before_dec {A} (compar : A → A → Z) a b :
  Decision (before compar a b) := Z_le_dec (compar a b) 0.

Definition merge_qsort_fun {A} (compar : A → A → Z) (base : list A) : list A :=
  merge_sort (before compar) base.

Lemma merge_qsort_perm {A} (compar : A → A → Z) base :
  merge_qsort_fun compar base ≡ₚ base.
Proof. apply merge_sort_Permutation. Qed.

Lemma merge_qsort_sorted {A} (compar : A → A → Z) base :
  consistent compar →
  StronglySorted (λ a b, compar a b ≤ 0) (merge_qsort_fun compar base).
Proof.
  intros [Htot Htrans].
  apply (@StronglySorted_merge_sort _ (before compar)).
  - intros a b c. apply Htrans.
  - intros a b. apply Htot.
Qed.

#[export] Instance merge_qsort : Qsort :=
  {| qsort := @merge_qsort_fun;
     qsort_perm := @merge_qsort_perm;
     qsort_sorted := @merge_qsort_sorted |}.

End MergeQsort.
Export MergeQsort.

(** * Vocabulary of the specification

    Definitions used to state the properties: shapes of input text, the
    tables after one step, and the sample inputs of the examples. *)

(** ** Shape of a statistics record *)

Module StatText.

(** Nesting of parentheses inside the command name: [d] levels are open,
    the depth never drops below zero and ends at zero. *)
Fixpoint balanced (d : nat) (s : list ascii) : bool :=
  match s with
  | [] => bool_decide (d = 0%nat)
  | c :: t =>
      if Ascii.eqb c "(" then balanced (S d) t
      else if Ascii.eqb c ")" then
        match d with
        | O => false
        | S d' => balanced d' t
        end
      else balanced d t
  end.

(** The whitespace-delimited fields of a text; [cur] is the field being
    read. *)
Fixpoint ws_fields_go (cur : list ascii) (s : list ascii) : list (list ascii) :=
  match s with
  | [] => match cur with [] => [] | _ => [cur] end
  | c :: t =>
      if isspace c then
        match cur with
        | [] => ws_fields_go [] t
        | _ => cur :: ws_fields_go [] t
        end
      else ws_fields_go (cur ++ [c]) t
  end.

Definition ws_fields (s : list ascii) : list (list ascii) := ws_fields_go [] s.

(** Value of a run of decimal digits. *)
Definition decimal (ds : list ascii) : Z :=
  foldl (λ acc c, acc * 10 + digit_val c) 0 ds.

(** An unsigned decimal field. *)
Definition is_unsigned (tok : list ascii) : bool :=
  match tok with
  | [] => false
  | _ => forallb isdigit tok
  end.

(** A decimal field with an optional minus sign. *)
Definition is_signed (tok : list ascii) : bool :=
  match tok with
  | c :: t => if Ascii.eqb c "-" then is_unsigned t else is_unsigned tok
  | [] => false
  end.

(** The text of a statistics record: the pid, white space, the command
    name in its parentheses, and the rest of the line. *)
Definition record_text (pid_text sep name rest : list ascii) : list ascii :=
  pid_text ++ sep ++ "("%char :: name ++ ")"%char :: rest.

(** The command name in its parentheses, as white space splits it: one
    field when the name holds no white space, more otherwise. *)
Definition name_fields (name : list ascii) : list (list ascii) :=
  ws_fields ("("%char :: name ++ [")"%char]).

(** What field number [i] (from 0) after the command name looks like:
    state, ppid pgrp session tty_nr tpgid, then flags, the four fault
    counters, utime and stime as unsigned numbers; the fields after stime
    are not read and may be anything. *)
Definition after_name_ok (i : nat) (tok : list ascii) : bool :=
  match i with
  | 0%nat => bool_decide (length tok = 1%nat)
  | 1%nat | 2%nat | 3%nat | 4%nat | 5%nat => is_signed tok
  | 6%nat | 7%nat | 8%nat | 9%nat | 10%nat | 11%nat | 12%nat => is_unsigned tok
  | _ => true
  end.

Definition fields_ok (toks : list (list ascii)) : bool :=
  forallb id (imap after_name_ok toks).

(** The text ends or continues with white space, as a test. *)
Definition starts_with_space (s : list ascii) : bool :=
  match s with [] => true | c :: _ => isspace c end.

(** A well-formed statistics record: a pid in decimal, white space, a
    command name closed by the parenthesis that brings the nesting depth
    back to zero (the name may hold any characters, white space and nested
    parentheses included), white space again and the fields that follow,
    as many as there are. *)
Definition well_formed (pid_text sep name rest : list ascii) : bool :=
  is_unsigned pid_text
  && match sep with [] => false | _ => forallb isspace sep end
  && balanced 0 name
  && starts_with_space rest
  && fields_ok (ws_fields rest).

(** The text ends or continues with white space. *)
Definition at_space (s : list ascii) : Prop :=
  match s with [] => True | c :: _ => isspace c = true end.

(** The text ends or continues with something that is not a digit. *)
Definition at_non_digit (s : list ascii) : Prop :=
  match s with [] => True | c :: _ => isdigit c = false end.

Definition no_space (tok : list ascii) : Prop :=
  forallb (λ c, negb (isspace c)) tok = true.

(** What the bounded buffer [comm] holds after the characters of [name]
    were offered to it inside the parentheses. *)
Definition offered (comm name : list ascii) : list ascii :=
  foldl (λ acc c, if Z.of_nat (length acc) <? 255 then acc ++ [c] else acc)
        comm name.

(** A format in which every conversion is preceded by white space. *)
Definition spaced (cs : list conv) : list directive :=
  flat_map (λ c, [dir_ws; dir_conv c]) cs.

(** The conversions of the second [fscanf], in order. *)
Definition field_convs : list conv :=
  [conv_c; conv_d; conv_d; conv_d; conv_d; conv_d; conv_u;
   conv_lu; conv_lu; conv_lu; conv_lu; conv_lu; conv_lu].


(** No decimal number starts the argument (after optional white space
    and sign): what [atoi] reads as 0 without looking further. *)
Definition no_leading_number (arg : string) : bool :=
  match skip_ws (chars arg) with
  | [] => true
  | c :: t =>
      if Ascii.eqb c "-" || Ascii.eqb c "+"
      then match t with d :: _ => negb (isdigit d) | [] => true end
      else negb (isdigit c)
  end.

(** A numeric argument is a decimal integer numeral, all of it: an
    optional sign and one or more digits. *)
Definition numeric (arg : string) : bool :=
  match chars arg with
  | c :: t =>
      if Ascii.eqb c "-" || Ascii.eqb c "+" then is_unsigned t
      else is_unsigned (c :: t)
  | [] => false
  end.

Definition non_numeric (arg : string) : bool := negb (numeric arg).

End StatText.
Export StatText.

(** ** The tables after one step *)

Module Tables.

(** The entry [find_or_create_user] writes for a new uid. *)
Definition fresh_user (getpwuid : Z → option string) (u : Z) : user_cpu_t :=
  {| uid := u; username := new_username getpwuid u; cpu_time := 0 |}.

(** The three outcomes of [find_or_create_user]. *)
Inductive lookup_result (getpwuid : Z → option string)
    (us : list user_cpu_t) (u : Z) : list user_cpu_t → option nat → Prop :=
| found i x :
    list_find (λ x, uid x = u) us = Some (i, x) →
    lookup_result getpwuid us u us (Some i)
| table_full :
    list_find (λ x, uid x = u) us = None →
    MAX_USERS ≤ Z.of_nat (length us) →
    lookup_result getpwuid us u us None
| created :
    list_find (λ x, uid x = u) us = None →
    Z.of_nat (length us) < MAX_USERS →
    lookup_result getpwuid us u (us ++ [fresh_user getpwuid u]) (Some (length us)).

(** The record of a tracked process once its counters are overwritten. *)
Definition advanced (pi : proc_info_t) (utime stime : Z) : proc_info_t :=
  {| pi_pid := pi_pid pi; pi_uid := pi_uid pi;
     last_utime := utime; last_stime := stime; valid := valid pi |}.

(** The user table once [d] ticks are credited to uid [u]. *)
Definition credited (getpwuid : Z → option string)
    (us : list user_cpu_t) (u d : Z) : list user_cpu_t :=
  match (find_or_create_user getpwuid us u).2 with
  | Some j => alter (add_cpu_time d) j (find_or_create_user getpwuid us u).1
  | None => (find_or_create_user getpwuid us u).1
  end.

(** At most one record per uid. *)
Definition users_unique (st : state) : Prop := NoDup (uid <$> users st).

Definition users_in_range (st : state) : Prop :=
  Forall (λ x, 0 ≤ cpu_time x < 2 ^ 64) (users st).

(** The ticks that the scan entry [e], met in state [st], adds for uid
    [u]: the two guarded deltas of a tracked process whose status record
    names [u]; nothing for any other entry. *)
Definition entry_delta (u : Z) (st : state) (e : dirent) : Z :=
  match observe e with
  | Some (p, u', utime, stime) =>
      if u' =? u then
        match find_proc_info (proc_info st) p with
        | Some (_, pi) =>
            Z.max 0 (utime - last_utime pi) + Z.max 0 (stime - last_stime pi)
        | None => 0
        end
      else 0
  | None => 0
  end.

(** The same over one listing, entry after entry, and over one tick. *)
Fixpoint scan_delta (getpwuid : Z → option string) (u : Z) (st : state)
    (es : list dirent) : Z :=
  match es with
  | [] => 0
  | e :: es' =>
      entry_delta u st e + scan_delta getpwuid u (scan_entry getpwuid st e) es'
  end.

Definition tick_delta (getpwuid : Z → option string) (u : Z) (st : state)
    (dir : option (list dirent)) : Z :=
  match dir with
  | Some es => scan_delta getpwuid u st es
  | None => 0
  end.

(** A user record with accumulated ticks; only these are printed. *)
Definition has_ticks (x : user_cpu_t) : Prop := 0 < cpu_time x.

#[export] Instance has_ticks_dec x : Decision (has_ticks x) := Z_lt_dec 0 (cpu_time x).

(** Descending order of accumulated ticks. *)
Definition more_ticks (a b : user_cpu_t) : Prop := cpu_time b ≤ cpu_time a.

(** The row printed for the user in position [k] (from 0) of the ranked
    users. *)
Definition row_at (clk_tck : Z) (k : nat) (x : user_cpu_t) : line :=
  Row (Z.of_nat k + 1) (username x) (ticks_to_ms clk_tck (cpu_time x)).

(** The clock rate used for the report. *)
Definition clock (h : host) : Z :=
  if sysconf_clk_tck h <=? 0 then 100 else sysconf_clk_tck h.

(** Baseline scan, then [n] sampling ticks. *)
Definition sampled (h : host) (n : nat) : state * list string * nat :=
  let b := initialize (getpwuid h) initial_state (proc h 0%nat) in
  monitor_loop h n 0 b.1 b.2.

(** The tables after the baseline scan and [n] scans, one scan for each of
    the listings [proc h 1], ..., [proc h n] in turn. *)
Fixpoint after_scans (h : host) (n : nat) : state :=
  match n with
  | O => (initialize (getpwuid h) initial_state (proc h 0%nat)).1
  | S n' => (scan_processes (getpwuid h) (after_scans h n') (proc h (S n'))).1
  end.

(** What the baseline scan and these [n] scans wrote on the error stream. *)
Fixpoint errors_after (h : host) (n : nat) : list string :=
  match n with
  | O => (initialize (getpwuid h) initial_state (proc h 0%nat)).2
  | S n' =>
      errors_after h n'
      ++ (scan_processes (getpwuid h) (after_scans h n') (proc h (S n'))).2
  end.

End Tables.
Export Tables.

(** ** Sample inputs *)

Module Fixtures.

Definition nl : string := String "010" "".
Definition tab : string := String "009" "".

(** A status record with the given real uid. *)
Definition status_text (u : Z) : list ascii :=
  chars ("Name:" +:+ tab +:+ "worker" +:+ nl +:+
         "Uid:" +:+ tab +:+ pretty u +:+ tab +:+ pretty u +:+ nl +:+
         "Gid:" +:+ tab +:+ "100" +:+ nl).

(** A statistics record with the given pid and tick counters. *)
Definition stat_text (p utime stime : Z) : list ascii :=
  chars (pretty p +:+ " (worker (1)) S 1 1 1 0 -1 4194304 0 0 0 0 " +:+
         pretty utime +:+ " " +:+ pretty stime +:+ " 0 0 20 0").

Definition process (p u utime stime : Z) : dirent :=
  {| d_name := pretty p;
     status := Some (status_text u);
     stat := Some (stat_text p utime stime) |}.

Definition no_passwd : Z → option string := λ _, None.

(** One user, one tracked process. *)
Definition st_c1 : state :=
  {| users := [{| uid := 7; username := "alice"; cpu_time := 40 |}];
     proc_info := [{| pi_pid := 10; pi_uid := 7; last_utime := 50;
                      last_stime := 9; valid := true |}] |}.

(** The run of the end-to-end example: P (pid 10, uid 7) at (5,5), then
    (8,9), then unchanged together with a new Q (pid 20, uid 7). *)
Definition steady_host : host :=
  {| sysconf_clk_tck := 100;
     getpwuid := no_passwd;
     proc := λ k,
       match k with
       | 0%nat => Some [process 10 7 5 5]
       | 1%nat => Some [process 10 7 8 9]
       | _ => Some [process 10 7 8 9; process 20 7 0 0]
       end |}.

(** A run on which a total wraps: pid 10 of user 7 reports 2^64-1 user
    ticks at the first tick and 5 more system ticks at the second. *)
Definition wrapping_host : host :=
  {| sysconf_clk_tck := 100;
     getpwuid := no_passwd;
     proc := λ k,
       match k with
       | 0%nat => Some [process 10 7 0 0]
       | 1%nat => Some [process 10 7 18446744073709551615 0]
       | _ => Some [process 10 7 18446744073709551615 5]
       end |}.

(** A run that accumulates more ticks than fit, times 1000, in 64 bits. *)
Definition long_host : host :=
  {| sysconf_clk_tck := 100;
     getpwuid := no_passwd;
     proc := λ k,
       match k with
       | 0%nat => Some [process 10 7 0 0]
       | _ => Some [process 10 7 18446744073709552 0]
       end |}.

End Fixtures.
Export Fixtures.

(** ** Invariants of the tables and of the values read *)

Module Invariants.

(** What a conversion can store in its C variable. *)
Definition conv_range (c : conv) (v : Z) : Prop :=
  match c with
  | conv_c => 0 ≤ v < 256
  | conv_d => - 2 ^ 31 ≤ v < 2 ^ 31
  | conv_u => 0 ≤ v < 2 ^ 32
  | conv_lu => 0 ≤ v < 2 ^ 64
  end.

(** A process record as the program writes it: valid, pid an [int], uid a
    [uid_t] other than the sentinel, counters within [unsigned long long]. *)
Definition proc_ok (pi : proc_info_t) : Prop :=
  valid pi = true ∧
  - 2 ^ 31 ≤ pi_pid pi < 2 ^ 31 ∧
  0 ≤ pi_uid pi < 4294967295 ∧
  0 ≤ last_utime pi < 2 ^ 64 ∧ 0 ≤ last_stime pi < 2 ^ 64.

Definition procs_ok (st : state) : Prop := Forall proc_ok (proc_info st).

(** Both tables within their arrays. *)
Definition within_capacity (st : state) : Prop :=
  num_users st ≤ MAX_USERS ∧ num_procs st ≤ MAX_PROCS.

(** At most one record per pid. *)
Definition procs_unique (st : state) : Prop := NoDup (pi_pid <$> proc_info st).

(** Every user name fits [username[64]] with its terminator, and every uid
    is a [uid_t] other than the sentinel. *)
Definition user_ok (x : user_cpu_t) : Prop :=
  (String.length (username x) ≤ 63)%nat ∧ 0 ≤ uid x < 4294967295.

Definition users_ok (st : state) : Prop := Forall user_ok (users st).

(** The pids of the entries of a listing that pass the three guards. *)
Definition observed_pids (es : list dirent) : list Z :=
  omap (λ e, (λ o : Z * Z * Z * Z, o.1.1.1) <$> observe e) es.

(** The same record, possibly with newer counters. *)
Definition same_process (a b : proc_info_t) : Prop :=
  pi_pid b = pi_pid a ∧ pi_uid b = pi_uid a ∧ valid b = valid a.

(** Every record of [st] is still in its slot in [st']. *)
Definition records_kept (st st' : state) : Prop :=
  ∀ i pi, proc_info st !! i = Some pi →
  ∃ pi', proc_info st' !! i = Some pi' ∧ same_process pi pi'.

End Invariants.
Export Invariants.

(** ** Lines of a status record, rows of the report *)

Module ReaderText.

(** A text without line feed. *)
Definition no_newline (l : list ascii) : Prop :=
  forallb (λ c, negb (Ascii.eqb c "010")) l = true.

(** What one call of [fgets] with the 256-byte buffer of the owner lookup
    takes from a file: a line of fewer than 255 characters with its line
    feed, or 255 characters without one. *)
Definition one_read (l : list ascii) : Prop :=
  (∃ line, l = line ++ ["010"%char] ∧ no_newline line ∧ (length line < 255)%nat) ∨
  (no_newline l ∧ length l = 255%nat).

(** The milliseconds of a report row. *)
Definition row_ms (l : line) : option Z :=
  match l with
  | Row _ _ ms => Some ms
  | _ => None
  end.

End ReaderText.
Export ReaderText.

(** ** More sample inputs *)

Module Scenarios.

(** Two processes of two users at the baseline, both busy afterwards. *)
Definition busy_host : host :=
  {| sysconf_clk_tck := 100;
     getpwuid := λ u, if u =? 7 then Some "alice"%string else None;
     proc := λ k,
       match k with
       | 0%nat => Some [process 10 7 5 5; process 20 8 1 1]
       | _ => Some [process 10 7 8 9; process 20 8 4 1]
       end |}.

(** A user table with no free slot: uids 0, 1, 2, .... *)
Definition crowded_users : list user_cpu_t :=
  (λ k, {| uid := Z.of_nat k; username := pretty (Z.of_nat k); cpu_time := 0 |})
    <$> seq 0 (Z.to_nat MAX_USERS).

(** The full user table together with one tracked process. *)
Definition st_crowded : state :=
  {| users := crowded_users;
     proc_info := [{| pi_pid := 10; pi_uid := 7; last_utime := 5;
                      last_stime := 5; valid := true |}] |}.

(** [n] process records of uid 7 with the pids [p], [p+1], ... *)
Fixpoint tracked_from (p : Z) (n : nat) : list proc_info_t :=
  match n with
  | O => []
  | S n' =>
      {| pi_pid := p; pi_uid := 7; last_utime := 0; last_stime := 0;
         valid := true |} :: tracked_from (p + 1) n'
  end.

(** A process table with no free slot: pids 1, 2, 3, ... *)
Definition st_packed : state :=
  {| users := [{| uid := 7; username := "alice"; cpu_time := 40 |}];
     proc_info := tracked_from 1 (Z.to_nat MAX_PROCS) |}.

(** Lines of a status record. *)
Definition name_line : list ascii := chars ("Name:" +:+ tab +:+ "worker").
Definition gid_line : list ascii := chars ("Gid:" +:+ tab +:+ "100").
Definition uid_tail : list ascii :=
  chars (tab +:+ "1000" +:+ tab +:+ "1000" +:+ tab +:+ "1000").

(** A table to report. *)
Definition report_users : list user_cpu_t :=
  [{| uid := 7; username := "alice"; cpu_time := 40 |};
   {| uid := 8; username := "bob"; cpu_time := 250 |};
   {| uid := 9; username := "carol"; cpu_time := 0 |}].


End Scenarios.
Export Scenarios.

(** * Properties *)

(** ** Arithmetic of the C types *)

Section Arith.

Lemma wrap64_range x : 0 ≤ wrap64 x < 2 ^ 64.
Proof. unfold wrap64, ULLONG_MOD. apply Z.mod_pos_bound. lia. Qed.

Lemma wrap64_small x : 0 ≤ x < 2 ^ 64 → wrap64 x = x.
Proof. intros Hx. unfold wrap64, ULLONG_MOD. apply Z.mod_small. lia. Qed.

Lemma wrap32_range x : 0 ≤ wrap32 x < 2 ^ 32.
Proof. unfold wrap32, UINT_MOD. apply Z.mod_pos_bound. lia. Qed.

Lemma UID_NONE_value : UID_NONE = 4294967295.
Proof. reflexivity. Qed.

Lemma strtoul_val_range neg v : 0 ≤ v → 0 ≤ strtoul_val neg v < 2 ^ 64.
Proof.
  intros Hv. unfold strtoul_val, ULONG_MAX.
  destruct (Z.ltb_spec (2 ^ 64 - 1) v); [lia|].
  destruct neg; [apply wrap64_range | lia].
Qed.

Lemma strtoul_val_exact v : 0 ≤ v < 2 ^ 64 → strtoul_val false v = v.
Proof.
  intros Hv. unfold strtoul_val, ULONG_MAX.
  destruct (Z.ltb_spec (2 ^ 64 - 1) v); [lia | done].
Qed.

End Arith.

(** ** The owner lookup reads the whole status record *)

Section OwnerLookup.

Lemma fgets_rest_length n : ∀ s,
  (length (fgets n s).2 ≤ length s)%nat.
Proof.
  induction n as [|n IH]; intros [|c s]; simpl; try lia.
  destruct (Ascii.eqb c "010"); simpl; [lia|].
  specialize (IH s). destruct (fgets n s) as [l r]. simpl in *. lia.
Qed.

Lemma fgets_consumes n c s :
  (length (fgets (S n) (c :: s)).2 < length (c :: s))%nat.
Proof.
  simpl. destruct (Ascii.eqb c "010"); simpl; [lia|].
  pose proof (fgets_rest_length n s). destruct (fgets n s) as [l r]. simpl in *. lia.
Qed.

(** More iterations than the record has characters change nothing: the
    loop of [get_process_uid] always ends by reaching the end of the file
    or the first "Uid:" line. *)
Lemma uid_loop_enough fuel1 : ∀ fuel2 s,
  (length s ≤ fuel1)%nat → (length s ≤ fuel2)%nat →
  uid_loop fuel1 s = uid_loop fuel2 s.
Proof.
  induction fuel1 as [|fuel1 IH]; intros fuel2 s H1 H2.
  - destruct s; [|simpl in H1; lia]. by destruct fuel2.
  - destruct s as [|c s]; [by destruct fuel2|].
    destruct fuel2 as [|fuel2]; [simpl in H2; lia|].
    cbn [uid_loop].
    pose proof (fgets_consumes 254 c s) as Hlt.
    destruct (fgets 255 (c :: s)) as [line rest]. simpl in Hlt, H1, H2.
    destruct (is_uid_line line); [done|]. apply IH; lia.
Qed.

End OwnerLookup.

(** ** The readers on sample files *)

Example read_stat_plain :
  read_proc_cpu_time
    (Some (chars "1234 (bash) S 1 1234 1234 34816 1300 4194304 900 5000 0 3 17 42 9 8 20 0"))
  = Some (17, 42).
Proof. reflexivity. Qed.

Example read_stat_nested_name :
  read_proc_cpu_time
    (Some (chars "77 (a (b) c) R 1 -1 77 0 -1 64 0 0 0 0 250 3 0 0"))
  = Some (250, 3).
Proof. reflexivity. Qed.

(** A name that closes more parentheses than it opens ends, for the depth
    count, at its first unmatched parenthesis; the rest of the name is then
    read as fields and the lookup fails. *)
Example read_stat_unbalanced_name :
  comm_loop 0 [] (chars "(foo)) S 1 1 1 0 -1 64 0 0 0 0 250 3 0 0")
  = (chars "foo", chars ") S 1 1 1 0 -1 64 0 0 0 0 250 3 0 0") ∧
  read_proc_cpu_time
    (Some (chars "77 (foo)) S 1 1 1 0 -1 64 0 0 0 0 250 3 0 0"))
  = None.
Proof. split; reflexivity. Qed.

Example read_uid_status : get_process_uid (Some (status_text 1000)) = 1000.
Proof. reflexivity. Qed.

Example read_stat_real_record :
  well_formed (chars "1234") (chars " ") (chars "bash")
    (chars " S 1 1234 1234 34816 -1 4194304 900 5000 0 3 17 42 9 8 20 -5 1 0 12345")
  = true ∧
  read_proc_cpu_time
    (Some (chars "1234 (bash) S 1 1234 1234 34816 -1 4194304 900 5000 0 3 17 42 9 8 20 -5 1 0 12345"))
  = Some (17, 42).
Proof. split; reflexivity. Qed.

(** ** The user and process tables *)

Section TableFacts.

Context (getpwuid : Z → option string).

Lemma find_or_create_user_cases us u :
  lookup_result getpwuid us u (find_or_create_user getpwuid us u).1
                     (find_or_create_user getpwuid us u).2.
Proof.
  unfold find_or_create_user.
  destruct (list_find _ us) as [[i x]|] eqn:Hf; simpl.
  - by econstructor.
  - destruct (Z.leb_spec MAX_USERS (Z.of_nat (length us))); simpl.
    + by constructor.
    + by constructor.
Qed.

(** Registering a user never touches an entry that is already there. *)
Lemma find_or_create_user_keeps us u j x :
  us !! j = Some x → (find_or_create_user getpwuid us u).1 !! j = Some x.
Proof.
  intros Hj. destruct (find_or_create_user_cases us u); try done.
  by apply lookup_app_l_Some.
Qed.

(** An entry that appears is the fresh one, with no ticks. *)
Lemma find_or_create_user_new us u j x :
  (find_or_create_user getpwuid us u).1 !! j = Some x → us !! j = None →
  x = fresh_user getpwuid u.
Proof.
  destruct (find_or_create_user_cases us u); try congruence.
  intros Hj Hn. apply lookup_app_Some in Hj as [Hj|[_ Hj]]; [congruence|].
  apply list_lookup_singleton_Some in Hj as [_ <-]. done.
Qed.

Lemma find_or_create_user_index us u :
  ∀ j, (find_or_create_user getpwuid us u).2 = Some j →
  ∃ x, (find_or_create_user getpwuid us u).1 !! j = Some x ∧ uid x = u ∧
       (us !! j = Some x ∨ (us !! j = None ∧ x = fresh_user getpwuid u)).
Proof.
  intros j. destruct (find_or_create_user_cases us u) as [i x Hf| |Hf Hlen]; intros [= <-].
  - apply list_find_Some in Hf as (Hi & Hu & _). eauto.
  - exists (fresh_user getpwuid u). split_and!; [|done|right; split; [|done]].
    + rewrite lookup_app_r by lia. by rewrite Nat.sub_diag.
    + apply lookup_ge_None. lia.
Qed.

Lemma add_proc_info_keeps ps p u ut stt i x :
  ps !! i = Some x → add_proc_info ps p u ut stt !! i = Some x.
Proof.
  intros Hi. unfold add_proc_info. case_match; [done|]. by apply lookup_app_l_Some.
Qed.

Lemma find_proc_info_add ps p u ut stt :
  find_proc_info ps p = None → Z.of_nat (length ps) < MAX_PROCS →
  find_proc_info (add_proc_info ps p u ut stt) p
  = Some (length ps, {| pi_pid := p; pi_uid := u; last_utime := ut;
                        last_stime := stt; valid := true |}).
Proof.
  intros Hf Hlen. unfold add_proc_info, find_proc_info in *.
  destruct (Z.leb_spec MAX_PROCS (Z.of_nat (length ps))); [lia|].
  apply list_find_Some. split; [|split].
  - rewrite lookup_app_r by lia. by rewrite Nat.sub_diag.
  - done.
  - intros j y Hj Hlt. rewrite lookup_app_l in Hj by done.
    eapply list_find_None in Hf. eapply Forall_lookup_1 in Hf; eauto.
Qed.

End TableFacts.

(** ** Accounting for one observed process *)

Section Accounting.

Context (getpwuid : Z → option string).

Lemma guarded_sub_max new last :
  (if last <=? new then new - last else 0) = Z.max 0 (new - last).
Proof. destruct (Z.leb_spec last new); lia. Qed.

Lemma account_tracked st p u utime stime i pi :
  find_proc_info (proc_info st) p = Some (i, pi) →
  account getpwuid st p u utime stime =
    {| proc_info := <[i := advanced pi utime stime]> (proc_info st);
       users := credited getpwuid (users st) u
                  (wrap64 (Z.max 0 (utime - last_utime pi)
                           + Z.max 0 (stime - last_stime pi))) |}.
Proof.
  intros Hf. unfold account, credited. rewrite Hf, !guarded_sub_max.
  destruct (find_or_create_user getpwuid (users st) u) as [us [j|]]; done.
Qed.

Lemma account_untracked st p u utime stime :
  find_proc_info (proc_info st) p = None →
  account getpwuid st p u utime stime =
    {| proc_info := add_proc_info (proc_info st) p u utime stime;
       users := (find_or_create_user getpwuid (users st) u).1 |}.
Proof. intros Hf. unfold account. by rewrite Hf. Qed.

Lemma find_proc_info_advanced ps p i pi utime stime :
  find_proc_info ps p = Some (i, pi) →
  find_proc_info (<[i := advanced pi utime stime]> ps) p
  = Some (i, advanced pi utime stime).
Proof.
  unfold find_proc_info. intros (Hi & [Hp Hv] & Hlt)%list_find_Some.
  apply list_find_Some. split; [|split].
  - apply list_lookup_insert_eq. by eapply lookup_lt_Some.
  - done.
  - intros j y Hj Hji. rewrite list_lookup_insert_ne in Hj by lia. eauto.
Qed.

(** C1. For a pid that is already tracked, an observation with new
    counters computes, separately for the user-mode and the system-mode
    counter, the delta max(0, new - stored), credits their sum and then
    overwrites the stored counters with the new values; a counter that
    went down gives a delta of exactly zero. *)
Theorem advance_floors_each_delta st p u utime stime i pi :
  find_proc_info (proc_info st) p = Some (i, pi) →
  let delta_user := Z.max 0 (utime - last_utime pi) in
  let delta_system := Z.max 0 (stime - last_stime pi) in
  let st' := account getpwuid st p u utime stime in
  users st' = credited getpwuid (users st) u (wrap64 (delta_user + delta_system)) ∧
  0 ≤ delta_user ∧ 0 ≤ delta_system ∧
  (utime < last_utime pi → delta_user = 0) ∧
  (stime < last_stime pi → delta_system = 0) ∧
  (∀ j x, list_find (λ x, uid x = u) (users st) = Some (j, x) →
          users st' !! j
          = Some {| uid := uid x; username := username x;
                    cpu_time := wrap64 (cpu_time x + wrap64 (delta_user + delta_system)) |}) ∧
  proc_info st' = <[i := advanced pi utime stime]> (proc_info st) ∧
  ∃ pi', find_proc_info (proc_info st') p = Some (i, pi') ∧
         last_utime pi' = utime ∧ last_stime pi' = stime.
Proof.
  intros Hf du ds st'. subst st'. rewrite (account_tracked _ _ _ _ _ _ _ Hf). simpl.
  split_and!; try done; try lia.
  - intros j x Hfind. unfold credited, find_or_create_user. rewrite Hfind. simpl.
    rewrite list_lookup_alter_eq.
    apply list_find_Some in Hfind as (-> & _). done.
  - exists (advanced pi utime stime). split; [|done].
    by apply find_proc_info_advanced.
Qed.

End Accounting.

Lemma advance_floors_each_delta_witness :
  find_proc_info (proc_info st_c1) 10
  = Some (0%nat, {| pi_pid := 10; pi_uid := 7; last_utime := 50;
                    last_stime := 9; valid := true |}) ∧
  users (account no_passwd st_c1 10 7 30 12)
  = [{| uid := 7; username := "alice"; cpu_time := 43 |}] ∧
  proc_info (account no_passwd st_c1 10 7 30 12)
  = [{| pi_pid := 10; pi_uid := 7; last_utime := 30; last_stime := 12;
        valid := true |}].
Proof.
  split; [reflexivity|].
  pose proof (advance_floors_each_delta no_passwd st_c1 10 7 30 12 0%nat
    {| pi_pid := 10; pi_uid := 7; last_utime := 50; last_stime := 9; valid := true |}
    eq_refl) as (Hu & _ & _ & _ & _ & _ & Hp & _).
  rewrite Hu, Hp. split; reflexivity.
Defined.

Section FirstAndLater.

Context (getpwuid : Z → option string).

Lemma observe_Some e p u utime stime :
  observe e = Some (p, u, utime, stime) →
  is_pid_dir (d_name e) = true ∧ p = atoi (d_name e) ∧
  u = get_process_uid (status e) ∧ u ≠ UID_NONE ∧
  read_proc_cpu_time (stat e) = Some (utime, stime).
Proof.
  unfold observe. destruct (is_pid_dir (d_name e)); simpl; [|done].
  destruct (Z.eqb_spec (get_process_uid (status e)) UID_NONE); [done|].
  destruct (read_proc_cpu_time (stat e)) as [[ut stt]|]; [|done].
  by intros [= <- <- <- <-].
Qed.

Lemma credited_other us u d j x :
  us !! j = Some x → uid x ≠ u → credited getpwuid us u d !! j = Some x.
Proof.
  intros Hj Hne. unfold credited.
  pose proof (find_or_create_user_index getpwuid us u) as Hidx.
  destruct (find_or_create_user getpwuid us u).2 as [j0|] eqn:Hr.
  - destruct (Hidx j0 eq_refl) as (y & Hy & Hu & Hor).
    rewrite list_lookup_alter_ne.
    + by apply find_or_create_user_keeps.
    + intros ->. destruct Hor as [Hor|[Hor _]]; congruence.
  - by apply find_or_create_user_keeps.
Qed.

Lemma credited_owner us u d j x :
  list_find (λ x, uid x = u) us = Some (j, x) →
  credited getpwuid us u d = alter (add_cpu_time d) j us.
Proof.
  intros Hf. unfold credited, find_or_create_user. by rewrite Hf.
Qed.

(** C2, as the code has it. The uid captured at the first observation is
    kept unchanged in the process record, but it is not consulted again:
    the delta of every later sample is credited to the uid read from the
    status record on that sample, and to no other user. *)
Theorem delta_goes_to_sampled_uid st e p u utime stime i pi :
  observe e = Some (p, u, utime, stime) →
  find_proc_info (proc_info st) p = Some (i, pi) →
  let st' := scan_entry getpwuid st e in
  let d := wrap64 (Z.max 0 (utime - last_utime pi) + Z.max 0 (stime - last_stime pi)) in
  u = get_process_uid (status e) ∧
  (∃ pi', proc_info st' !! i = Some pi' ∧ pi_uid pi' = pi_uid pi) ∧
  users st' = credited getpwuid (users st) u d ∧
  (∀ j x, users st !! j = Some x → uid x ≠ u → users st' !! j = Some x).
Proof.
  intros Ho Hf st' d. subst st'. unfold scan_entry. rewrite Ho.
  apply observe_Some in Ho as (_ & _ & Hu & _ & _).
  rewrite (account_tracked _ _ _ _ _ _ _ _ Hf). simpl.
  split_and!; [done| |done|].
  - exists (advanced pi utime stime). split; [|done].
    apply list_lookup_insert_eq.
    apply list_find_Some in Hf as (Hi & _). by eapply lookup_lt_Some.
  - intros j x Hj Hne. by apply credited_other.
Qed.

(** C5. A process seen for the first time, in the baseline scan or in a
    later one, credits nobody: the user table is unchanged or gains the
    owner with zero ticks, and the new process record holds the counters
    just read. *)
Theorem first_observation_credits_nothing st e p u utime stime :
  observe e = Some (p, u, utime, stime) →
  find_proc_info (proc_info st) p = None →
  scan_entry getpwuid st e = init_entry getpwuid st e ∧
  let st' := init_entry getpwuid st e in
  (users st' = users st ∨
   users st' = users st ++ [{| uid := u; username := new_username getpwuid u;
                               cpu_time := 0 |}]) ∧
  (∀ j x, users st !! j = Some x → users st' !! j = Some x) ∧
  (∀ j x, users st' !! j = Some x → users st !! j = None →
          uid x = u ∧ cpu_time x = 0) ∧
  (num_users st < MAX_USERS → ∃ j x, users st' !! j = Some x ∧ uid x = u) ∧
  (num_procs st < MAX_PROCS →
   find_proc_info (proc_info st') p
   = Some (length (proc_info st),
           {| pi_pid := p; pi_uid := u; last_utime := utime;
              last_stime := stime; valid := true |})).
Proof.
  intros Ho Hf. unfold scan_entry, init_entry. rewrite Ho.
  rewrite (account_untracked _ _ _ _ _ _ Hf). split; [done|]. simpl.
  split_and!.
  - destruct (find_or_create_user_cases getpwuid (users st) u); auto.
  - intros j x. apply find_or_create_user_keeps.
  - intros j x Hj Hn.
    by rewrite (find_or_create_user_new _ _ _ _ _ Hj Hn).
  - unfold num_users. intros Hlen.
    pose proof (find_or_create_user_index getpwuid (users st) u) as Hidx.
    destruct (find_or_create_user_cases getpwuid (users st) u) as [j x Hx| |]; [| lia |].
    + destruct (Hidx j eq_refl) as (y & Hy & Hu & _). eauto.
    + destruct (Hidx _ eq_refl) as (y & Hy & Hu & _). eauto.
  - unfold num_procs. intros Hlen. by apply find_proc_info_add.
Qed.

(** The baseline scan as a whole credits nobody either. *)
Lemma initialize_credits_nothing st dir j x :
  users st !! j = Some x → users (initialize getpwuid st dir).1 !! j = Some x.
Proof.
  destruct dir as [es|]; simpl; [|done].
  revert st. induction es as [|e es IH]; intros st Hj; simpl; [done|].
  apply IH. unfold init_entry. destruct (observe e) as [[[[p u] ut] stt]|]; [|done].
  simpl. by apply find_or_create_user_keeps.
Qed.

Lemma initialize_new_users_zero st dir j x :
  users (initialize getpwuid st dir).1 !! j = Some x → users st !! j = None →
  cpu_time x = 0.
Proof.
  destruct dir as [es|]; simpl; [|congruence].
  revert st. induction es as [|e es IH]; intros st Hj Hn; simpl in *; [congruence|].
  destruct (users (init_entry getpwuid st e) !! j) as [y|] eqn:Hy.
  - pose proof (initialize_credits_nothing (init_entry getpwuid st e) (Some es) j y Hy) as Hk.
    simpl in Hk. rewrite Hk in Hj. injection Hj as <-.
    unfold init_entry in Hy. destruct (observe e) as [[[[p u] ut] stt]|]; [|congruence].
    simpl in Hy. by rewrite (find_or_create_user_new _ _ _ _ _ Hy Hn).
  - by apply (IH (init_entry getpwuid st e)).
Qed.

End FirstAndLater.

(** C2 fails as stated: a process tracked under uid 7 whose status record
    later shows uid 8 has its delta credited to user 8, not to the uid kept
    in its record. *)
Lemma delta_goes_to_stored_uid_counterexample :
  ¬ (∀ (getpwuid : Z → option string) st e p u utime stime i pi,
       observe e = Some (p, u, utime, stime) →
       find_proc_info (proc_info st) p = Some (i, pi) →
       users (scan_entry getpwuid st e)
       = credited getpwuid (users st) (pi_uid pi)
           (wrap64 (Z.max 0 (utime - last_utime pi) + Z.max 0 (stime - last_stime pi)))).
Proof.
  intros Hclaim.
  specialize (Hclaim no_passwd
    (initialize no_passwd initial_state (Some [process 10 7 5 5])).1
    (process 10 8 8 9) 10 8 8 9 0%nat
    {| pi_pid := 10; pi_uid := 7; last_utime := 5; last_stime := 5; valid := true |}
    eq_refl eq_refl).
  vm_compute in Hclaim. discriminate.
Qed.

Lemma delta_goes_to_sampled_uid_witness :
  observe (process 10 8 8 9) = Some (10, 8, 8, 9) ∧
  find_proc_info
    (proc_info (initialize no_passwd initial_state (Some [process 10 7 5 5])).1) 10
  = Some (0%nat, {| pi_pid := 10; pi_uid := 7; last_utime := 5;
                    last_stime := 5; valid := true |}) ∧
  users (scan_entry no_passwd
           (initialize no_passwd initial_state (Some [process 10 7 5 5])).1
           (process 10 8 8 9))
  = [{| uid := 7; username := "7"; cpu_time := 0 |};
     {| uid := 8; username := "8"; cpu_time := 7 |}].
Proof.
  split; [reflexivity|]. split; [reflexivity|].
  pose proof (delta_goes_to_sampled_uid no_passwd
    (initialize no_passwd initial_state (Some [process 10 7 5 5])).1
    (process 10 8 8 9) 10 8 8 9 0%nat
    {| pi_pid := 10; pi_uid := 7; last_utime := 5; last_stime := 5; valid := true |}
    eq_refl eq_refl) as (_ & _ & Hu & _).
  rewrite Hu. reflexivity.
Defined.

Lemma first_observation_credits_nothing_witness :
  observe (process 20 7 31 4) = Some (20, 7, 31, 4) ∧
  find_proc_info (proc_info st_c1) 20 = None ∧
  users (scan_entry no_passwd st_c1 (process 20 7 31 4)) = users st_c1 ∧
  proc_info (scan_entry no_passwd st_c1 (process 20 7 31 4))
  = proc_info st_c1 ++ [{| pi_pid := 20; pi_uid := 7; last_utime := 31;
                           last_stime := 4; valid := true |}].
Proof.
  split; [reflexivity|]. split; [reflexivity|].
  pose proof (first_observation_credits_nothing no_passwd st_c1
    (process 20 7 31 4) 20 7 31 4 eq_refl eq_refl) as (Heq & _).
  rewrite Heq. split; reflexivity.
Defined.

(** ** The report *)

Lemma ranked_users_unique (us ranked : list user_cpu_t) :
  NoDup (uid <$> us) → ranked ≡ₚ filter has_ticks us → NoDup (uid <$> ranked).
Proof.
  intros Hus ->. eapply sublist_NoDup; [done|].
  apply fmap_sublist, sublist_filter.
Qed.

Section ReportFacts.

Context `{Qsort} (clk_tck : Z).

Lemma compare_users_le a b : compare_users a b ≤ 0 ↔ more_ticks a b.
Proof.
  unfold compare_users, more_ticks.
  destruct (Z.ltb_spec (cpu_time a) (cpu_time b)); [lia|].
  destruct (Z.ltb_spec (cpu_time b) (cpu_time a)); lia.
Qed.

Lemma compare_users_consistent : consistent compare_users.
Proof.
  split.
  - intros a b. rewrite !compare_users_le. unfold more_ticks. lia.
  - intros a b c. rewrite !compare_users_le. unfold more_ticks. lia.
Qed.

Lemma StronglySorted_filter_keep {A} (R : relation A) (P : A → Prop)
    `{∀ x, Decision (P x)} l :
  StronglySorted R l → StronglySorted R (filter P l).
Proof.
  induction 1 as [|x l Hl IH Hx]; [constructor|].
  rewrite filter_cons. case_decide; [|done].
  constructor; [done|].
  apply Forall_forall. intros y [_ Hy]%list_elem_of_filter.
  by eapply Forall_forall in Hx.
Qed.

Lemma StronglySorted_weaken {A} (R1 R2 : relation A) l :
  (∀ a b, R1 a b → R2 a b) → StronglySorted R1 l → StronglySorted R2 l.
Proof.
  intros HR. induction 1 as [|x l Hl IH Hx]; constructor; [done|].
  eapply Forall_impl; [done|]. intros y. apply HR.
Qed.

Lemma print_rows_spec us : ∀ rank : Z,
  print_rows clk_tck rank us
  = (imap (λ k, row_at clk_tck (Z.to_nat rank + k)) (filter has_ticks us),
     rank + Z.of_nat (length (filter has_ticks us))) ∨ rank < 0.
Proof.
  induction us as [|x us IH]; intros rank.
  - left. simpl. f_equal. lia.
  - destruct (Z.lt_ge_cases rank 0) as [?|Hr]; [by right|]. left.
    simpl. rewrite filter_cons. destruct (Z.ltb_spec 0 (cpu_time x)) as [Hx|Hx].
    + rewrite decide_True by done.
      destruct (IH (rank + 1)) as [->|?]; [|lia].
      rewrite imap_cons. simpl. f_equal; [|lia]. f_equal.
      * unfold row_at. f_equal. lia.
      * apply imap_ext. intros k y _. simpl. unfold row_at. f_equal. lia.
    + rewrite decide_False by (unfold has_ticks; lia).
      destruct (IH rank) as [->|?]; [done|lia].
Qed.

(** C6. The report sorts the user records by accumulated ticks in
    descending order, prints one row for each record with strictly
    positive ticks, numbered 1, 2, ... in sorted order, leaves out the
    records with zero ticks, and prints the "nothing recorded" line exactly
    when no record has positive ticks. *)
Theorem report_ranks_positive_users (us : list user_cpu_t) :
  let sorted := (print_summary clk_tck us).1 in
  let ranked := filter has_ticks sorted in
  sorted ≡ₚ us ∧
  StronglySorted more_ticks sorted ∧
  ranked ≡ₚ filter has_ticks us ∧
  StronglySorted more_ticks ranked ∧
  (NoDup (uid <$> us) → NoDup (uid <$> ranked)) ∧
  (print_summary clk_tck us).2
  = [Header; Rule] ++ imap (row_at clk_tck) ranked
    ++ (if decide (ranked = []) then [NoUsage] else []).
Proof.
  unfold print_summary.
  destruct (print_rows clk_tck 0 (qsort compare_users us)) as [rows rank] eqn:Hrows.
  simpl. destruct (print_rows_spec (qsort compare_users us) 0) as [Hs|?]; [|lia].
  rewrite Hrows in Hs. injection Hs as -> ->.
  assert (Hsorted : StronglySorted more_ticks (qsort compare_users us)).
  { eapply StronglySorted_weaken; [|apply qsort_sorted, compare_users_consistent].
    intros a b. apply compare_users_le. }
  split_and!.
  - apply qsort_perm.
  - done.
  - by rewrite qsort_perm.
  - by apply StronglySorted_filter_keep.
  - intros Hus. eapply ranked_users_unique; [done|]. by rewrite qsort_perm.
  - f_equal. f_equal. f_equal.
    destruct (filter has_ticks (qsort compare_users us)) as [|x l]; [done|].
    rewrite decide_False by done.
    destruct (Z.eqb_spec (0 + Z.of_nat (length (x :: l))) 0) as [Hz|]; [|done].
    simpl in Hz. lia.
Qed.

End ReportFacts.

(** ** Decimal text and [atoi] *)

Section Decimal.

Lemma pretty_N_char_digit d :
  (d < 10)%N →
  isdigit (pretty_N_char d) = true ∧ digit_val (pretty_N_char d) = Z.of_N d.
Proof.
  intros Hd.
  assert (d = 0 ∨ d = 1 ∨ d = 2 ∨ d = 3 ∨ d = 4 ∨ d = 5 ∨ d = 6 ∨ d = 7
          ∨ d = 8 ∨ d = 9)%N as Hcases by lia.
  repeat (destruct Hcases as [->|Hcases]; [by vm_compute|]).
  subst. by vm_compute.
Qed.

Lemma isdigit_not_space c : isdigit c = true → isspace c = false.
Proof. unfold isdigit, isspace. lia. Qed.

Lemma isdigit_not_sign c :
  isdigit c = true → Ascii.eqb c "-" = false ∧ Ascii.eqb c "+" = false.
Proof.
  intros Hc. split; apply Ascii.eqb_neq; intros ->; by vm_compute in Hc.
Qed.

(** Reading back the digits that [pretty] wrote. *)
Lemma scan_digits_pretty x : ∀ s, ∃ m, ∀ acc,
  scan_digits acc (chars (pretty_N_go x s))
  = scan_digits (acc * m + Z.of_N x) (chars s).
Proof.
  induction (N.lt_wf_0 x) as [x _ IH]. intros s.
  destruct (decide (x = 0)%N) as [->|Hx].
  - exists 1. intros acc. rewrite pretty_N_go_0. f_equal. lia.
  - rewrite pretty_N_go_step by lia.
    destruct (IH (x `div` 10)%N) with (s := String (pretty_N_char (x `mod` 10)) s)
      as [m Hm]; [apply N.div_lt; lia|].
    exists (m * 10). intros acc. rewrite Hm. simpl.
    destruct (pretty_N_char_digit (x `mod` 10)%N) as [-> ->]; [by apply N.mod_lt|].
    f_equal. pose proof (N.div_mod x 10 ltac:(done)). nia.
Qed.

Lemma pretty_starts_with_digit x : ∀ s,
  (0 < x)%N → ∃ c t, chars (pretty_N_go x s) = c :: t ∧ isdigit c = true.
Proof.
  induction (N.lt_wf_0 x) as [x _ IH]. intros s Hx.
  rewrite pretty_N_go_step by done.
  destruct (decide (x `div` 10 = 0)%N) as [->|Hd].
  - rewrite pretty_N_go_0. simpl. eexists _, _. split; [done|].
    apply pretty_N_char_digit. by apply N.mod_lt.
  - apply IH; [apply N.div_lt; lia | by apply N.neq_0_lt_0].
Qed.

Lemma scan_number_pretty (n : Z) :
  0 < n → scan_number (chars (pretty n)) = Some (false, n, []).
Proof.
  intros Hn. destruct n as [|p|p]; try lia.
  unfold pretty, pretty_Z, pretty, pretty_positive, pretty, pretty_N.
  rewrite decide_False by done.
  destruct (pretty_starts_with_digit (N.pos p) "") as (c & t & Hc & Hd); [lia|].
  destruct (scan_digits_pretty (N.pos p) "") as [m Hm].
  unfold scan_number. rewrite Hc. simpl.
  rewrite (isdigit_not_space c Hd).
  destruct (isdigit_not_sign c Hd) as [-> ->]. rewrite Hd.
  rewrite <- Hc, Hm. simpl. done.
Qed.

(** A duration written in decimal is read back by [atoi]. *)
Lemma atoi_pretty (n : Z) : 0 < n < 2 ^ 31 → atoi (pretty n) = n.
Proof.
  intros Hn. unfold atoi. fold (chars (pretty n)).
  rewrite scan_number_pretty by lia.
  unfold strtol_val, to_int, LONG_MAX, LONG_MIN.
  rewrite Z.min_r, Z.max_r by lia. rewrite Z.mod_small by lia. lia.
Qed.

Lemma atoi_no_leading_number arg : no_leading_number arg = true → atoi arg = 0.
Proof.
  unfold no_leading_number, atoi, scan_number. fold (chars arg).
  destruct (skip_ws (chars arg)) as [|c t]; [done|].
  destruct (Ascii.eqb c "-"); simpl.
  { destruct t as [|d t]; [done|]. by intros ->%negb_true_iff. }
  destruct (Ascii.eqb c "+"); simpl.
  { destruct t as [|d t]; [done|]. by intros ->%negb_true_iff. }
  by intros ->%negb_true_iff.
Qed.

End Decimal.

(** ** The program as a whole *)

Section Program.

Context `{Qsort} (h : host).

Lemma monitor_loop_scans n : ∀ done st err,
  (monitor_loop h n done st err).2 = (done + n)%nat.
Proof.
  induction n as [|n IH]; intros done st err; simpl; [lia|].
  destruct (scan_processes _ st _) as [st' e]. rewrite IH. lia.
Qed.

Lemma main_runs argv0 arg :
  0 < atoi arg →
  main h [argv0; arg] =
    {| exit_status := 0;
       stderr := (sampled h (Z.to_nat (atoi arg))).1.2;
       stdout := (print_summary (clock h) (users (sampled h (Z.to_nat (atoi arg))).1.1)).2;
       scans := Z.to_nat (atoi arg);
       final := {| users := (print_summary (clock h) (users (sampled h (Z.to_nat (atoi arg))).1.1)).1;
                   proc_info := proc_info (sampled h (Z.to_nat (atoi arg))).1.1 |} |}.
Proof.
  intros Hd. unfold main, sampled, clock.
  destruct (Z.leb_spec (atoi arg) 0); [lia|].
  destruct (initialize _ _ _) as [st0 e0]. simpl.
  pose proof (monitor_loop_scans (Z.to_nat (atoi arg)) 0 st0 e0) as Hn.
  destruct (monitor_loop _ _ _ _ _) as [[st err] n]. simpl in *. subst n.
  destruct (print_summary _ _) as [us out]. done.
Qed.

End Program.

(** ** Accumulated ticks over the run *)

Section Totals.

Context (getpwuid : Z → option string).

Lemma find_or_create_user_in_range us u :
  Forall (λ x, 0 ≤ cpu_time x < 2 ^ 64) us →
  Forall (λ x, 0 ≤ cpu_time x < 2 ^ 64) (find_or_create_user getpwuid us u).1.
Proof.
  intros Hus. destruct (find_or_create_user_cases getpwuid us u); try done.
  apply Forall_app_2; [done|]. constructor; [simpl; lia | constructor].
Qed.

Lemma credited_in_range us u d :
  Forall (λ x, 0 ≤ cpu_time x < 2 ^ 64) us →
  Forall (λ x, 0 ≤ cpu_time x < 2 ^ 64) (credited getpwuid us u d).
Proof.
  intros Hus. unfold credited.
  pose proof (find_or_create_user_in_range us u Hus) as Hus'.
  destruct (find_or_create_user getpwuid us u).2 as [j|]; [|done].
  apply Forall_alter; [done|]. intros x _ _. simpl. apply wrap64_range.
Qed.

Lemma scan_entry_in_range st e :
  users_in_range st → users_in_range (scan_entry getpwuid st e).
Proof.
  unfold users_in_range, scan_entry. intros Hst.
  destruct (observe e) as [[[[p u] ut] stt]|]; [|done].
  destruct (find_proc_info (proc_info st) p) as [[i pi]|] eqn:Hf.
  - rewrite (account_tracked _ _ _ _ _ _ _ _ Hf). simpl. by apply credited_in_range.
  - rewrite (account_untracked _ _ _ _ _ _ Hf). simpl.
    by apply find_or_create_user_in_range.
Qed.

Lemma init_entry_in_range st e :
  users_in_range st → users_in_range (init_entry getpwuid st e).
Proof.
  unfold users_in_range, init_entry. intros Hst.
  destruct (observe e) as [[[[p u] ut] stt]|]; [|done].
  simpl. by apply find_or_create_user_in_range.
Qed.

Lemma scan_processes_in_range st dir :
  users_in_range st → users_in_range (scan_processes getpwuid st dir).1.
Proof.
  destruct dir as [es|]; simpl; [|done].
  revert st. induction es as [|e es IH]; intros st Hst; simpl; [done|].
  by apply IH, scan_entry_in_range.
Qed.

Lemma initialize_in_range st dir :
  users_in_range st → users_in_range (initialize getpwuid st dir).1.
Proof.
  destruct dir as [es|]; simpl; [|done].
  revert st. induction es as [|e es IH]; intros st Hst; simpl; [done|].
  by apply IH, init_entry_in_range.
Qed.

End Totals.

Section Run.

Context (h : host).

Lemma monitor_loop_snoc n : ∀ done st err,
  monitor_loop h (S n) done st err =
  let r := monitor_loop h n done st err in
  let s := scan_processes (getpwuid h) r.1.1 (proc h (S r.2)) in
  (s.1, r.1.2 ++ s.2, S r.2).
Proof.
  induction n as [|n IH]; intros done st err.
  - simpl. by destruct (scan_processes _ _ _).
  - change (monitor_loop h (S (S n)) done st err) with
      (let '(st', e) := scan_processes (getpwuid h) st (proc h (S done)) in
       monitor_loop h (S n) (S done) st' (err ++ e)).
    destruct (scan_processes (getpwuid h) st (proc h (S done))) as [st' e] eqn:Hs.
    rewrite IH. simpl. by rewrite Hs.
Qed.

(** The state before the tick [S n] and the one after it. *)
Lemma sampled_S n :
  (sampled h (S n)).1.1
  = (scan_processes (getpwuid h) (sampled h n).1.1 (proc h (S n))).1.
Proof.
  unfold sampled. rewrite monitor_loop_snoc. simpl.
  by rewrite (monitor_loop_scans h).
Qed.

Lemma sampled_in_range n : users_in_range (sampled h n).1.1.
Proof.
  induction n as [|n IH].
  - unfold sampled. simpl. apply initialize_in_range. constructor.
  - rewrite sampled_S. by apply scan_processes_in_range.
Qed.

End Run.

(** ** One record per user *)

Section OneRecordPerUser.

Context (getpwuid : Z → option string).

Lemma find_or_create_user_unique us u :
  NoDup (uid <$> us) → NoDup (uid <$> (find_or_create_user getpwuid us u).1).
Proof.
  intros Hus. destruct (find_or_create_user_cases getpwuid us u) as [| |Hnone _]; try done.
  rewrite fmap_app. apply NoDup_app. split_and!; [done| |apply NoDup_singleton].
  intros v Hv ->%list_elem_of_singleton. simpl in Hv.
  apply list_elem_of_fmap in Hv as (x & Hx & Hin).
  apply list_find_None in Hnone. eapply Forall_forall in Hnone; [|done]. done.
Qed.

Lemma credited_uids us u d :
  uid <$> credited getpwuid us u d = uid <$> (find_or_create_user getpwuid us u).1.
Proof.
  unfold credited. destruct (find_or_create_user getpwuid us u).2 as [j|]; [|done].
  rewrite (list_fmap_alter uid (add_cpu_time d) id).
  - by apply list_alter_id.
  - by apply Forall_forall.
Qed.

Lemma scan_entry_unique st e :
  users_unique st → users_unique (scan_entry getpwuid st e).
Proof.
  unfold users_unique, scan_entry. intros Hst.
  destruct (observe e) as [[[[p u] ut] stt]|]; [|done].
  destruct (find_proc_info (proc_info st) p) as [[i pi]|] eqn:Hf.
  - rewrite (account_tracked _ _ _ _ _ _ _ _ Hf). simpl.
    rewrite credited_uids. by apply find_or_create_user_unique.
  - rewrite (account_untracked _ _ _ _ _ _ Hf). simpl.
    by apply find_or_create_user_unique.
Qed.

Lemma init_entry_unique st e :
  users_unique st → users_unique (init_entry getpwuid st e).
Proof.
  unfold users_unique, init_entry. intros Hst.
  destruct (observe e) as [[[[p u] ut] stt]|]; [|done].
  simpl. by apply find_or_create_user_unique.
Qed.

Lemma scan_processes_unique st dir :
  users_unique st → users_unique (scan_processes getpwuid st dir).1.
Proof.
  destruct dir as [es|]; simpl; [|done].
  revert st. induction es as [|e es IH]; intros st Hst; simpl; [done|].
  by apply IH, scan_entry_unique.
Qed.

Lemma initialize_unique st dir :
  users_unique st → users_unique (initialize getpwuid st dir).1.
Proof.
  destruct dir as [es|]; simpl; [|done].
  revert st. induction es as [|e es IH]; intros st Hst; simpl; [done|].
  by apply IH, init_entry_unique.
Qed.

End OneRecordPerUser.

(** X4. At every tick of every run the user table holds at most one record
    per uid, so a row of the report stands for one user. *)
Lemma sampled_users_unique h n : users_unique (sampled h n).1.1.
Proof.
  induction n as [|n IH].
  - unfold sampled. simpl. apply initialize_unique. constructor.
  - rewrite sampled_S. by apply scan_processes_unique.
Qed.

(** C7 fails as stated: between two consecutive ticks the total of user 7
    drops from 2^64-1 to 4. *)
Lemma cpu_time_non_decreasing_counterexample :
  ¬ (∀ (h : host) n j x,
       users (sampled h n).1.1 !! j = Some x →
       ∃ x', users (sampled h (S n)).1.1 !! j = Some x' ∧
             cpu_time x ≤ cpu_time x').
Proof.
  intros Hclaim.
  destruct (Hclaim wrapping_host 1%nat 0%nat
              {| uid := 7; username := "7"; cpu_time := 18446744073709551615 |}
              eq_refl) as (x' & Hx' & Hle).
  vm_compute in Hx'. injection Hx' as <-. simpl in Hle. lia.
Qed.

(** ** Milliseconds *)

Section Milliseconds.

Context `{Qsort} (h : host).

(** C9, as the code has it. The clock rate is the queried one, or 100 when
    the query gives a non-positive value; the reported milliseconds are
    the product ticks * 1000, reduced modulo 2^64, divided by the clock
    rate and rounded down, which is floor(ticks * 1000 / rate) whenever
    ticks * 1000 is below 2^64; 250 ticks at rate 100 give 2500. *)
Theorem report_milliseconds (ticks : Z) :
  - 2 ^ 63 ≤ sysconf_clk_tck h < 2 ^ 63 →
  0 ≤ ticks →
  (sysconf_clk_tck h ≤ 0 → clock h = 100) ∧
  (0 < sysconf_clk_tck h → clock h = sysconf_clk_tck h) ∧
  (∀ argv0 arg, 0 < atoi arg →
     stdout (main h [argv0; arg])
     = (print_summary (clock h) (users (sampled h (Z.to_nat (atoi arg))).1.1)).2) ∧
  ticks_to_ms (clock h) ticks = ((ticks * 1000) mod 2 ^ 64) / clock h ∧
  (ticks * 1000 < 2 ^ 64 → ticks_to_ms (clock h) ticks = ticks * 1000 / clock h) ∧
  ticks_to_ms 100 250 = 2500.
Proof.
  intros Hclk Hticks.
  assert (0 < clock h < 2 ^ 63) as Hc.
  { unfold clock. destruct (Z.leb_spec (sysconf_clk_tck h) 0); lia. }
  assert (ticks_to_ms (clock h) ticks = ((ticks * 1000) mod 2 ^ 64) / clock h) as Hms.
  { unfold ticks_to_ms. rewrite (wrap64_small (clock h)) by lia. done. }
  split_and!.
  - intros Hle. unfold clock. destruct (Z.leb_spec (sysconf_clk_tck h) 0); [done|lia].
  - intros Hlt. unfold clock. destruct (Z.leb_spec (sysconf_clk_tck h) 0); [lia|done].
  - intros argv0 arg Hd. by rewrite main_runs.
  - done.
  - intros Hfit. rewrite Hms. rewrite Z.mod_small by lia. done.
  - reflexivity.
Qed.

End Milliseconds.

(** C9 fails as stated: 18446744073709552 accumulated ticks (reached by
    the run below) are reported as 3 ms at rate 100, not as
    184467440737095520 ms. *)
Lemma report_milliseconds_exact_counterexample :
  users (sampled long_host 1).1.1
  = [{| uid := 7; username := "7"; cpu_time := 18446744073709552 |}] ∧
  stdout (main long_host ["monitor"; "1"]%string) = [Header; Rule; Row 1 "7" 3] ∧
  ticks_to_ms 100 18446744073709552 ≠ 18446744073709552 * 1000 / 100.
Proof. split_and!; [by vm_compute..|]. vm_compute. discriminate. Qed.

Lemma report_milliseconds_witness :
  250 * 1000 < 2 ^ 64 ∧
  ticks_to_ms (clock steady_host) 250 = 250 * 1000 / clock steady_host.
Proof.
  split; [reflexivity|].
  assert (- 2 ^ 63 ≤ sysconf_clk_tck steady_host < 2 ^ 63) as Hclk by (simpl; lia).
  assert (0 ≤ 250) as Hticks by lia.
  destruct (report_milliseconds steady_host 250 Hclk Hticks) as (_ & _ & _ & _ & Hexact & _).
  apply Hexact. reflexivity.
Defined.

(** ** The "unknown owner" sentinel *)

Section Sentinel.

Context (getpwuid : Z → option string).

(** C10. The owner lookup signals failure with [(uid_t)-1], that is
    4294967295; an entry whose status record carries that very uid is
    therefore treated like a failed lookup: it is skipped in the baseline
    scan and in every sampling scan, leaving both tables as they were. *)
Theorem unknown_uid_is_skipped (e : dirent) :
  get_process_uid (status e) = 4294967295 →
  UID_NONE = 4294967295 ∧
  get_process_uid None = 4294967295 ∧
  observe e = None ∧
  (∀ st, scan_entry getpwuid st e = st ∧ init_entry getpwuid st e = st) ∧
  (∀ st es, foldl (scan_entry getpwuid) st (e :: es)
            = foldl (scan_entry getpwuid) st es).
Proof.
  intros Hu.
  assert (observe e = None) as Ho.
  { unfold observe. rewrite Hu. destruct (is_pid_dir (d_name e)); done. }
  split_and!; try done.
  - intros st. unfold scan_entry, init_entry. by rewrite Ho.
  - intros st es. simpl. unfold scan_entry at 2. by rewrite Ho.
Qed.

End Sentinel.

Lemma unknown_uid_is_skipped_witness :
  get_process_uid (status (process 300 4294967295 12 3)) = 4294967295 ∧
  is_Some (status (process 300 4294967295 12 3)) ∧
  read_proc_cpu_time (stat (process 300 4294967295 12 3)) = Some (12, 3) ∧
  scan_entry no_passwd st_c1 (process 300 4294967295 12 3) = st_c1.
Proof.
  split; [reflexivity|]. split; [by eexists|]. split; [reflexivity|].
  apply (unknown_uid_is_skipped no_passwd (process 300 4294967295 12 3)).
  vm_compute. reflexivity.
Defined.

(** ** Parsing a statistics record *)

Section Scanning.

Lemma at_space_non_digit s : at_space s → at_non_digit s.
Proof.
  destruct s as [|c s]; [done|]. simpl. intros Hc.
  destruct (isdigit c) eqn:Hd; [|done].
  apply isdigit_not_space in Hd. congruence.
Qed.

Lemma skip_ws_app w s :
  forallb isspace w = true →
  match s with [] => True | c :: _ => isspace c = false end →
  skip_ws (w ++ s) = s.
Proof.
  intros Hw Hs. induction w as [|c w IH]; simpl in *.
  - destruct s as [|c s]; [done|]. simpl in *. by rewrite Hs.
  - apply andb_true_iff in Hw as [-> Hw]. by apply IH.
Qed.


Lemma scan_digits_app ds : ∀ acc s,
  forallb isdigit ds = true → at_non_digit s →
  scan_digits acc (ds ++ s) = (foldl (λ a c, a * 10 + digit_val c) acc ds, s).
Proof.
  induction ds as [|c ds IH]; intros acc s Hds Hs; simpl in *.
  - destruct s as [|c s]; [done|]. simpl in *. by rewrite Hs.
  - apply andb_true_iff in Hds as [-> Hds]. by apply IH.
Qed.

Lemma scan_number_unsigned tok s :
  is_unsigned tok = true → at_non_digit s →
  scan_number (tok ++ s) = Some (false, decimal tok, s).
Proof.
  intros Htok Hs. destruct tok as [|c tok]; [done|].
  simpl in Htok. apply andb_true_iff in Htok as [Hc Htok].
  unfold scan_number. simpl. rewrite (isdigit_not_space c Hc).
  destruct (isdigit_not_sign c Hc) as [-> ->]. rewrite Hc.
  change (c :: tok ++ s) with ((c :: tok) ++ s).
  rewrite scan_digits_app; [done| |done]. simpl. by rewrite Hc.
Qed.

Lemma scan_number_signed tok s :
  is_signed tok = true → at_non_digit s →
  ∃ neg v, scan_number (tok ++ s) = Some (neg, v, s).
Proof.
  intros Htok Hs. destruct tok as [|c tok]; [done|]. simpl in Htok.
  destruct (Ascii.eqb c "-") eqn:Hc.
  - apply Ascii.eqb_eq in Hc as ->.
    destruct tok as [|d tok]; [done|].
    simpl in Htok. apply andb_true_iff in Htok as [Hd Htok].
    unfold scan_number. simpl.
    change (isspace "-") with false. simpl.
    do 2 eexists. rewrite Hd.
    rewrite scan_digits_app by done. reflexivity.
  - exists false, (decimal (c :: tok)).
    by apply (scan_number_unsigned (c :: tok)).
Qed.

End Scanning.

Section Fields.

Lemma ws_fields_go_open s : ∀ cur tok toks,
  cur ≠ [] → ws_fields_go cur s = tok :: toks →
  ∃ t s', s = t ++ s' ∧ tok = cur ++ t ∧ no_space t ∧ at_space s' ∧
          ws_fields s' = toks.
Proof.
  induction s as [|c s IH]; intros cur tok toks Hcur Hgo; simpl in Hgo.
  - destruct cur as [|c0 cur]; [done|]. injection Hgo as <- <-.
    exists [], []. split_and!; try done. by rewrite app_nil_r.
  - destruct (isspace c) eqn:Hc.
    + destruct cur as [|c0 cur]; [done|]. injection Hgo as <- <-.
      exists [], (c :: s). split_and!; try done.
      * by rewrite app_nil_r.
      * unfold ws_fields. simpl. by rewrite Hc.
    + destruct (IH (cur ++ [c]) tok toks) as (t & s' & -> & -> & Ht & Hs' & Hf);
        [by destruct cur | done |].
      exists (c :: t), s'. split_and!; try done.
      * by rewrite <- app_assoc.
      * unfold no_space in *. simpl. by rewrite Hc.
Qed.

(** Splitting off the first field of a text. *)
Lemma ws_fields_cons s : ∀ tok toks,
  ws_fields s = tok :: toks →
  ∃ w s', s = w ++ tok ++ s' ∧ forallb isspace w = true ∧
          tok ≠ [] ∧ no_space tok ∧ at_space s' ∧ ws_fields s' = toks.
Proof.
  unfold ws_fields at 1.
  induction s as [|c s IH]; intros tok toks Hgo; simpl in Hgo; [done|].
  destruct (isspace c) eqn:Hc.
  - destruct (IH tok toks Hgo) as (w & s' & -> & Hw & Hne & Ht & Hs' & Hf).
    exists (c :: w), s'. split_and!; try done. simpl. by rewrite Hc.
  - destruct (ws_fields_go_open s [c] tok toks) as (t & s' & -> & -> & Ht & Hs' & Hf);
      [done..|].
    exists [], s'. split_and!; try done.
    unfold no_space in *. simpl. by rewrite Hc.
Qed.



Lemma no_space_head tok s :
  tok ≠ [] → no_space tok →
  match tok ++ s with [] => True | c :: _ => isspace c = false end.
Proof.
  destruct tok as [|c tok]; [done|]. intros _ Ht. simpl.
  unfold no_space in Ht. simpl in Ht.
  apply andb_true_iff in Ht as [Hc _]. by apply negb_true_iff.
Qed.

(** Skipping white space in front of the remaining fields. *)
Lemma skip_ws_fields s tok toks :
  ws_fields s = tok :: toks →
  ∃ s', skip_ws s = tok ++ s' ∧ tok ≠ [] ∧ at_space s' ∧ ws_fields s' = toks.
Proof.
  intros (w & s' & -> & Hw & Hne & Ht & Hs' & Hf)%ws_fields_cons.
  exists s'. split_and!; try done.
  apply skip_ws_app; [done|]. by apply no_space_head.
Qed.


End Fields.

Section CommandName.

(** What the bounded buffer [comm] holds after the characters of [name]
    were offered to it. *)
Lemma comm_store_inside depth comm c :
  0 < depth →
  comm_store depth comm c
  = if Z.of_nat (length comm) <? 255 then comm ++ [c] else comm.
Proof.
  intros Hd. unfold comm_store. by destruct (Z.ltb_spec 0 depth); [|lia].
Qed.

Lemma offered_take name : ∀ comm,
  offered comm name = comm ++ take (255 - length comm) name.
Proof.
  unfold offered.
  induction name as [|c name IH]; intros comm; simpl.
  - by rewrite take_nil, app_nil_r.
  - rewrite IH. destruct (Z.ltb_spec (Z.of_nat (length comm)) 255) as [Hlt|Hge].
    + rewrite length_app. simpl.
      replace (255 - length comm)%nat with (S (255 - (length comm + 1)))%nat by lia.
      simpl. by rewrite <- app_assoc.
    + replace (255 - length comm)%nat with 0%nat by lia. done.
Qed.

(** The loop started inside the outer parenthesis runs to the closing
    parenthesis that brings the depth back to zero. *)
Lemma comm_loop_balanced name : ∀ (d : nat) comm rest,
  balanced d name = true →
  comm_loop (Z.of_nat d + 1) comm (name ++ ")"%char :: rest)
  = (offered comm name, rest).
Proof.
  induction name as [|c name IH]; intros d comm rest Hb; simpl in Hb.
  - apply bool_decide_eq_true in Hb as ->. reflexivity.
  - change ((c :: name) ++ ")"%char :: rest) with (c :: (name ++ ")"%char :: rest)).
    cbn [comm_loop offered foldl]. fold (offered).
    destruct (Ascii.eqb c "(") eqn:Hopen.
    + destruct (Z.eqb_spec (Z.of_nat d + 1 + 1) 1); [lia|].
      rewrite comm_store_inside by lia.
      replace (Z.of_nat d + 1 + 1) with (Z.of_nat (S d) + 1) by lia.
      by rewrite IH.
    + destruct (Ascii.eqb c ")") eqn:Hclose.
      * destruct d as [|d]; [done|].
        destruct (Z.eqb_spec (Z.of_nat (S d) + 1 - 1) 0); [lia|].
        rewrite comm_store_inside by lia.
        replace (Z.of_nat (S d) + 1 - 1) with (Z.of_nat d + 1) by lia.
        by rewrite IH.
      * rewrite comm_store_inside by lia. by rewrite IH.
Qed.

Lemma comm_loop_name name rest :
  balanced 0 name = true →
  comm_loop 0 [] ("("%char :: name ++ ")"%char :: rest) = (take 255 name, rest).
Proof.
  intros Hb. cbn [comm_loop]. change (Ascii.eqb "(" "(") with true. simpl.
  pose proof (comm_loop_balanced name 0 [] rest Hb) as Hloop.
  change (Z.of_nat 0 + 1) with (0 + 1) in Hloop.
  rewrite Hloop. by rewrite offered_take.
Qed.

Lemma comm_loop_no_fields s : ∀ comm,
  forallb isspace s = true → comm_loop 0 comm s = (comm, []).
Proof.
  induction s as [|c s IH]; intros comm Hs; simpl in *; [done|].
  apply andb_true_iff in Hs as [Hc Hs].
  assert (Ascii.eqb c "(" = false) as ->.
  { apply Ascii.eqb_neq. intros ->. by vm_compute in Hc. }
  assert (Ascii.eqb c ")" = false) as ->.
  { apply Ascii.eqb_neq. intros ->. by vm_compute in Hc. }
  unfold comm_store. simpl. by apply IH.
Qed.

End CommandName.

Section FormatOverFields.

Lemma fields_fmt_spaced : fields_fmt = spaced field_convs.
Proof. reflexivity. Qed.






End FormatOverFields.

Section StatRecord.

Lemma skip_ws_idem s : skip_ws (skip_ws s) = skip_ws s.
Proof.
  induction s as [|c s IH]; simpl; [done|].
  destruct (isspace c) eqn:Hc; [done|]. simpl. by rewrite Hc.
Qed.

Lemma scan_number_skip_ws s : scan_number (skip_ws s) = scan_number s.
Proof. unfold scan_number. by rewrite skip_ws_idem. Qed.

Lemma is_unsigned_signed tok : is_unsigned tok = true → is_signed tok = true.
Proof.
  destruct tok as [|c tok]; [done|]. intros Htok. simpl.
  assert (isdigit c = true) as Hc by (simpl in Htok; by apply andb_true_iff in Htok as [? _]).
  by destruct (isdigit_not_sign c Hc) as [-> _].
Qed.


(** The first [fscanf]: the pid field is consumed together with the white
    space after it. *)
Lemma fscanf_pid s tok toks :
  ws_fields s = tok :: toks → is_unsigned tok = true →
  ∃ v s', fscanf pid_fmt s = ([v], skip_ws s') ∧ ws_fields s' = toks.
Proof.
  intros Hf Htok.
  destruct (skip_ws_fields s tok toks Hf) as (s' & Hskip & Hne & Hs' & Hf').
  unfold pid_fmt. cbn [fscanf]. unfold scan_conv.
  rewrite <- scan_number_skip_ws, Hskip.
  destruct (scan_number_signed tok s' (is_unsigned_signed tok Htok)
              (at_space_non_digit s' Hs')) as (neg & v & ->).
  simpl. eauto.
Qed.



Lemma digits_value_nonneg tok : ∀ acc,
  0 ≤ acc → forallb isdigit tok = true →
  0 ≤ foldl (λ a c, a * 10 + digit_val c) acc tok.
Proof.
  induction tok as [|c tok IH]; intros acc Hacc; simpl; [done|].
  intros [Hc Htok]%andb_true_iff. apply IH; [|done].
  unfold digit_val, isdigit in *. lia.
Qed.

Lemma decimal_nonneg tok : forallb isdigit tok = true → 0 ≤ decimal tok.
Proof. by apply digits_value_nonneg. Qed.

Lemma is_unsigned_digits tok : is_unsigned tok = true → forallb isdigit tok = true.
Proof. by destruct tok. Qed.

End StatRecord.

Section StatTheorems.


(** C3. The command name is delimited by counting parentheses: for a
    record whose name is closed by the parenthesis that brings the
    nesting depth back to zero, the parser stores the text between the
    first opening parenthesis and that closing parenthesis (as much as
    the buffer holds) and parses the remaining fields from the text right
    after it, whatever parentheses or white space the name contains. *)
Theorem command_name_by_nesting_depth (pid_text sep name rest : list ascii) :
  is_unsigned pid_text = true →
  forallb isspace sep = true →
  balanced 0 name = true →
  comm_loop 0 [] ("("%char :: name ++ ")"%char :: rest) = (take 255 name, rest) ∧
  ((length name ≤ 255)%nat → take 255 name = name) ∧
  read_proc_cpu_time (Some (pid_text ++ sep ++ "("%char :: name ++ ")"%char :: rest))
  = read_fields rest.
Proof.
  intros Hpid Hsep Hb.
  pose proof (comm_loop_name name rest Hb) as Hloop.
  split; [done|]. split; [by apply take_ge|].
  unfold read_proc_cpu_time, pid_fmt. cbn [fscanf]. unfold scan_conv.
  rewrite scan_number_unsigned; [|done|].
  - simpl. rewrite skip_ws_app by done. by rewrite Hloop.
  - destruct sep as [|c sep]; simpl; [done|].
    simpl in Hsep. apply andb_true_iff in Hsep as [Hc _].
    destruct (isdigit c) eqn:Hd; [|done].
    apply isdigit_not_space in Hd. congruence.
Qed.

End StatTheorems.

Lemma command_name_by_nesting_depth_witness :
  is_unsigned (chars "77") = true ∧ balanced 0 (chars "a (b) c") = true ∧
  read_proc_cpu_time (Some (chars "77 (a (b) c) R 1 -1 77 0 -1 64 0 0 0 0 250 3 0 0"))
  = read_fields (chars " R 1 -1 77 0 -1 64 0 0 0 0 250 3 0 0").
Proof.
  split; [reflexivity|]. split; [reflexivity|].
  apply (command_name_by_nesting_depth (chars "77") (chars " ") (chars "a (b) c")
           (chars " R 1 -1 77 0 -1 64 0 0 0 0 250 3 0 0")); reflexivity.
Defined.

(** ** The counters among the fields of a record *)

Section FieldsOfRecord.

















End FieldsOfRecord.



(** The sample records of the runs above, whose command name "worker (1)"
    holds a blank and a nested pair of parentheses, are well-formed. *)
Example stat_text_well_formed :
  stat_text 10 8 9
  = record_text (chars "10") (chars " ") (chars "worker (1)")
      (chars " S 1 1 1 0 -1 4194304 0 0 0 0 8 9 0 0 20 0") ∧
  well_formed (chars "10") (chars " ") (chars "worker (1)")
    (chars " S 1 1 1 0 -1 4194304 0 0 0 0 8 9 0 0 20 0") = true ∧
  length (name_fields (chars "worker (1)")) = 2%nat ∧
  read_proc_cpu_time (Some (stat_text 10 8 9)) = Some (8, 9) ∧
  ws_fields (stat_text 10 8 9) !! 14%nat = Some (chars "8") ∧
  ws_fields (stat_text 10 8 9) !! 15%nat = Some (chars "9").
Proof. by vm_compute. Qed.

(** ** Ranges of the values read *)

Section ReaderRanges.

Lemma to_int_range x : - 2 ^ 31 ≤ to_int x < 2 ^ 31.
Proof. unfold to_int. pose proof (Z.mod_pos_bound (x + 2 ^ 31) (2 ^ 32)). lia. Qed.

Lemma digit_val_range c : isdigit c = true → 0 ≤ digit_val c ≤ 9.
Proof. unfold isdigit, digit_val. lia. Qed.

Lemma scan_digits_nonneg s : ∀ acc, 0 ≤ acc → 0 ≤ (scan_digits acc s).1.
Proof.
  induction s as [|c s IH]; intros acc Hacc; simpl; [done|].
  destruct (isdigit c) eqn:Hc; [|done].
  apply IH. pose proof (digit_val_range c Hc). lia.
Qed.

Lemma scan_number_nonneg s neg v t : scan_number s = Some (neg, v, t) → 0 ≤ v.
Proof.
  unfold scan_number.
  destruct (match skip_ws s with
            | [] => (false, skip_ws s)
            | c :: t0 => if Ascii.eqb c "-" then (true, t0)
                         else if Ascii.eqb c "+" then (false, t0)
                         else (false, skip_ws s)
            end) as [neg' s2].
  destruct s2 as [|c s2]; [done|].
  destruct (isdigit c); [|done].
  pose proof (scan_digits_nonneg (c :: s2) 0 ltac:(lia)) as Hv.
  destruct (scan_digits 0 (c :: s2)) as [v' s3]. intros [= <- <- <-]. done.
Qed.

Lemma scan_conv_range c s v t : scan_conv c s = Some (v, t) → conv_range c v.
Proof.
  destruct c; simpl.
  - destruct s as [|ch s]; [done|]. intros [= <- <-].
    unfold code. pose proof (N_ascii_bounded ch). lia.
  - destruct (scan_number s) as [[[neg w] t']|] eqn:Hs; [|done].
    simpl. intros [= <- <-]. apply to_int_range.
  - destruct (scan_number s) as [[[neg w] t']|] eqn:Hs; [|done].
    simpl. intros [= <- <-]. apply wrap32_range.
  - destruct (scan_number s) as [[[neg w] t']|] eqn:Hs; [|done].
    simpl. intros [= <- <-]. apply strtoul_val_range.
    by eapply scan_number_nonneg.
Qed.

Lemma fscanf_spaced_range cs : ∀ s i c v,
  cs !! i = Some c → (fscanf (spaced cs) s).1 !! i = Some v → conv_range c v.
Proof.
  induction cs as [|c0 cs IH]; intros s i c v Hc Hv; [by rewrite lookup_nil in Hc|].
  change (spaced (c0 :: cs)) with (dir_ws :: dir_conv c0 :: spaced cs) in Hv.
  cbn [fscanf] in Hv.
  destruct (scan_conv c0 (skip_ws s)) as [[v0 s']|] eqn:Hscan; [|by destruct i].
  pose proof (IH s') as IH'.
  destruct (fscanf (spaced cs) s') as [vs s''] eqn:Hrest. simpl in *.
  destruct i as [|i]; simpl in *.
  - simplify_eq. by eapply scan_conv_range.
  - by eapply IH'.
Qed.

Lemma last_two_of_13_inv (vs : list Z) (a b : Z) :
  match vs with
  | [_; _; _; _; _; _; _; _; _; _; _; x; y] => Some (x, y)
  | _ => None
  end = Some (a, b) →
  vs !! 11%nat = Some a ∧ vs !! 12%nat = Some b.
Proof.
  do 14 (destruct vs as [|? vs]; try done). by intros [= <- <-].
Qed.

Lemma read_fields_range s u t :
  read_fields s = Some (u, t) → 0 ≤ u < 2 ^ 64 ∧ 0 ≤ t < 2 ^ 64.
Proof.
  unfold read_fields. rewrite fields_fmt_spaced.
  intros [Hu Ht]%last_two_of_13_inv. split.
  - by apply (fscanf_spaced_range field_convs s 11%nat conv_lu u).
  - by apply (fscanf_spaced_range field_convs s 12%nat conv_lu t).
Qed.

Lemma read_proc_cpu_time_range f u t :
  read_proc_cpu_time f = Some (u, t) → 0 ≤ u < 2 ^ 64 ∧ 0 ≤ t < 2 ^ 64.
Proof.
  destruct f as [s|]; [|done]. unfold read_proc_cpu_time.
  destruct (fscanf pid_fmt s) as [[|pid_read [|? ?]] s1]; try done.
  destruct (comm_loop 0 [] s1) as [comm s2]. apply read_fields_range.
Qed.

Lemma uid_loop_range fuel : ∀ s, 0 ≤ uid_loop fuel s < 2 ^ 32.
Proof.
  induction fuel as [|fuel IH]; intros s; [by vm_compute|].
  destruct s as [|c s]; [by vm_compute|].
  cbn [uid_loop]. destruct (fgets 255 (c :: s)) as [line rest].
  destruct (is_uid_line line); [|apply IH].
  destruct (scan_conv conv_u (drop 4 line)) as [[v t]|] eqn:Hs; [|by vm_compute].
  by apply (scan_conv_range conv_u (drop 4 line) v t).
Qed.

Lemma get_process_uid_range f : 0 ≤ get_process_uid f < 2 ^ 32.
Proof. destruct f as [s|]; [apply uid_loop_range | by vm_compute]. Qed.

Lemma atoi_range name : - 2 ^ 31 ≤ atoi name < 2 ^ 31.
Proof.
  unfold atoi. destruct (scan_number _) as [[[neg v] t]|]; [apply to_int_range|lia].
Qed.

(** What [observe] returns makes a well-formed process record. *)
Lemma observed_proc_ok e p u ut stt :
  observe e = Some (p, u, ut, stt) →
  proc_ok {| pi_pid := p; pi_uid := u; last_utime := ut; last_stime := stt;
             valid := true |}.
Proof.
  intros (_ & -> & -> & Hne & Hread)%observe_Some.
  pose proof (atoi_range (d_name e)).
  pose proof (get_process_uid_range (status e)).
  pose proof (read_proc_cpu_time_range _ _ _ Hread).
  rewrite UID_NONE_value in Hne.
  unfold proc_ok. simpl. split_and!; done || lia.
Qed.

End ReaderRanges.

Ltac observed_ranges Ho :=
  let Hp := fresh "Hp" in let Hu := fresh "Hu" in
  let Hut := fresh "Hut" in let Hstt := fresh "Hstt" in
  pose proof (observed_proc_ok _ _ _ _ _ Ho) as (_ & Hp & Hu & Hut & Hstt);
  simpl in Hp, Hu, Hut, Hstt.

(** X10. Whatever the two per-process files contain, an entry that passes
    the guards yields a pid within [int], a uid within [uid_t] that is not
    the sentinel, and two counters within [unsigned long long]. *)
Theorem observe_in_range e p u utime stime :
  observe e = Some (p, u, utime, stime) →
  - 2 ^ 31 ≤ p < 2 ^ 31 ∧ 0 ≤ u < 4294967295 ∧
  0 ≤ utime < 2 ^ 64 ∧ 0 ≤ stime < 2 ^ 64.
Proof.
  intros Ho. observed_ranges Ho. done.
Qed.

(** ** Invariants of the two tables over a run *)

Section RunInvariants.

Context (h : host).

(** A property of the tables that holds at program start and is kept by
    the body of both [readdir] loops holds at every tick. *)
Lemma sampled_invariant (I : state → Prop) :
  I initial_state →
  (∀ st e, I st → I (init_entry (getpwuid h) st e)) →
  (∀ st e, I st → I (scan_entry (getpwuid h) st e)) →
  ∀ n, I (sampled h n).1.1.
Proof.
  intros H0 Hinit Hscan.
  assert (Hfold : ∀ (f : state → dirent → state) es st,
            (∀ st e, I st → I (f st e)) → I st → I (foldl f st es)).
  { intros f es. induction es as [|e es IH]; intros st Hf Hst; simpl; [done|].
    apply IH; [done|]. by apply Hf. }
  induction n as [|n IH].
  - unfold sampled. simpl. destruct (proc h 0%nat) as [es|]; simpl; [|done].
    by apply Hfold.
  - rewrite sampled_S. destruct (proc h (S n)) as [es|]; simpl; [|done].
    by apply Hfold.
Qed.

End RunInvariants.

Section TableInvariants.

Context (getpwuid : Z → option string).

Lemma find_or_create_user_length us u :
  Z.of_nat (length us) ≤ MAX_USERS →
  Z.of_nat (length (find_or_create_user getpwuid us u).1) ≤ MAX_USERS.
Proof.
  intros Hus. destruct (find_or_create_user_cases getpwuid us u); try done.
  rewrite length_app. simpl. lia.
Qed.

Lemma credited_length us u d :
  length (credited getpwuid us u d) = length (find_or_create_user getpwuid us u).1.
Proof.
  unfold credited. destruct (find_or_create_user getpwuid us u).2; [|done].
  apply length_alter.
Qed.

Lemma add_proc_info_length ps p u ut stt :
  Z.of_nat (length ps) ≤ MAX_PROCS →
  Z.of_nat (length (add_proc_info ps p u ut stt)) ≤ MAX_PROCS.
Proof.
  intros Hps. unfold add_proc_info.
  destruct (Z.leb_spec MAX_PROCS (Z.of_nat (length ps))); [done|].
  rewrite length_app. simpl. lia.
Qed.

Lemma init_entry_capacity st e :
  within_capacity st → within_capacity (init_entry getpwuid st e).
Proof.
  unfold within_capacity, num_users, num_procs, init_entry. intros [Hu Hp].
  destruct (observe e) as [[[[p u] ut] stt]|]; [|done]. simpl.
  split; [by apply find_or_create_user_length | by apply add_proc_info_length].
Qed.

Lemma scan_entry_capacity st e :
  within_capacity st → within_capacity (scan_entry getpwuid st e).
Proof.
  unfold within_capacity, num_users, num_procs, scan_entry. intros [Hu Hp].
  destruct (observe e) as [[[[p u] ut] stt]|]; [|done].
  destruct (find_proc_info (proc_info st) p) as [[i pi]|] eqn:Hf.
  - rewrite (account_tracked _ _ _ _ _ _ _ _ Hf). simpl.
    rewrite credited_length, length_insert.
    split; [by apply find_or_create_user_length | done].
  - rewrite (account_untracked _ _ _ _ _ _ Hf). simpl.
    split; [by apply find_or_create_user_length | by apply add_proc_info_length].
Qed.

Lemma add_proc_info_ok ps p u ut stt :
  Forall proc_ok ps →
  proc_ok {| pi_pid := p; pi_uid := u; last_utime := ut; last_stime := stt;
             valid := true |} →
  Forall proc_ok (add_proc_info ps p u ut stt).
Proof.
  intros Hps Hnew. unfold add_proc_info. case_match; [done|].
  apply Forall_app_2; [done|]. by constructor.
Qed.

Lemma init_entry_procs_ok st e : procs_ok st → procs_ok (init_entry getpwuid st e).
Proof.
  unfold procs_ok, init_entry. intros Hst.
  destruct (observe e) as [[[[p u] ut] stt]|] eqn:Ho; [|done]. simpl.
  apply add_proc_info_ok; [done|]. by eapply observed_proc_ok.
Qed.

Lemma scan_entry_procs_ok st e : procs_ok st → procs_ok (scan_entry getpwuid st e).
Proof.
  unfold procs_ok, scan_entry. intros Hst.
  destruct (observe e) as [[[[p u] ut] stt]|] eqn:Ho; [|done].
  observed_ranges Ho.
  destruct (find_proc_info (proc_info st) p) as [[i pi]|] eqn:Hf.
  - rewrite (account_tracked _ _ _ _ _ _ _ _ Hf). simpl.
    apply Forall_insert; [done|].
    apply list_find_Some in Hf as (Hi & _ & _).
    eapply Forall_lookup_1 in Hst; [|done].
    destruct Hst as (Hv & Hpid & Huid & _ & _).
    unfold proc_ok. simpl. split_and!; done || lia.
  - rewrite (account_untracked _ _ _ _ _ _ Hf). simpl.
    apply add_proc_info_ok; [done|]. by eapply observed_proc_ok.
Qed.

End TableInvariants.

(** X1. At every tick of every run the user table holds at most MAX_USERS
    entries and the process table at most MAX_PROCS, so no store goes past
    the end of the two arrays. *)
Theorem tables_within_capacity h n :
  num_users (sampled h n).1.1 ≤ 1024 ∧ num_procs (sampled h n).1.1 ≤ 65536.
Proof.
  apply (sampled_invariant h within_capacity).
  - by vm_compute.
  - intros st e. apply init_entry_capacity.
  - intros st e. apply scan_entry_capacity.
Qed.

(** X13. At every tick of every run each process record is valid and holds
    a pid within [int], a uid within [uid_t] other than the sentinel, and
    counters within [unsigned long long]. *)
Theorem process_records_well_formed h n i pi :
  proc_info (sampled h n).1.1 !! i = Some pi →
  valid pi = true ∧
  - 2 ^ 31 ≤ pi_pid pi < 2 ^ 31 ∧
  0 ≤ pi_uid pi < 4294967295 ∧
  0 ≤ last_utime pi < 2 ^ 64 ∧ 0 ≤ last_stime pi < 2 ^ 64.
Proof.
  intros Hi.
  assert (procs_ok (sampled h n).1.1) as Hok.
  { apply (sampled_invariant h procs_ok).
    - constructor.
    - intros st e. apply init_entry_procs_ok.
    - intros st e. apply scan_entry_procs_ok. }
  by eapply Forall_lookup_1 in Hok.
Qed.

(** ** User names fit their buffer *)

Section UserNames.

Context (getpwuid : Z → option string).

Lemma substring_length_le m : ∀ s, (String.length (String.substring 0 m s) ≤ m)%nat.
Proof.
  induction m as [|m IH]; intros [|c s]; simpl; try lia.
  specialize (IH s). lia.
Qed.

Lemma pretty_N_go_length k : ∀ x s,
  (x < 10 ^ N.of_nat k)%N →
  (String.length (pretty_N_go x s) ≤ String.length s + k)%nat.
Proof.
  induction k as [|k IH]; intros x s Hx.
  - assert (x = 0%N) as -> by (simpl in Hx; lia). rewrite pretty_N_go_0. lia.
  - destruct (decide (x = 0)%N) as [->|Hne]; [rewrite pretty_N_go_0; lia|].
    rewrite pretty_N_go_step by lia.
    etrans; [apply IH|simpl; lia].
    apply N.Div0.div_lt_upper_bound.
    rewrite Nat2N.inj_succ, N.pow_succ_r' in Hx. lia.
Qed.

Lemma pretty_uid_length u : 0 ≤ u < 2 ^ 32 → (String.length (pretty u) ≤ 10)%nat.
Proof.
  intros Hu. destruct u as [|p|p]; [simpl; lia| |lia].
  unfold pretty, pretty_Z, pretty, pretty_positive, pretty, pretty_N.
  rewrite decide_False by done.
  apply (pretty_N_go_length 10 (N.pos p) ""). lia.
Qed.

Lemma new_username_length u :
  0 ≤ u < 2 ^ 32 → (String.length (new_username getpwuid u) ≤ 63)%nat.
Proof.
  intros Hu. unfold new_username, get_username.
  destruct (getpwuid u) as [name|].
  - apply substring_length_le.
  - pose proof (pretty_uid_length u Hu). lia.
Qed.

Lemma find_or_create_user_ok us u :
  0 ≤ u < 4294967295 → Forall user_ok us →
  Forall user_ok (find_or_create_user getpwuid us u).1.
Proof.
  intros Hu Hus. destruct (find_or_create_user_cases getpwuid us u); try done.
  apply Forall_app_2; [done|]. constructor; [|constructor].
  split; simpl; [apply new_username_length; lia | lia].
Qed.

Lemma credited_ok us u d :
  0 ≤ u < 4294967295 → Forall user_ok us →
  Forall user_ok (credited getpwuid us u d).
Proof.
  intros Hu Hus. unfold credited.
  pose proof (find_or_create_user_ok us u Hu Hus) as Hus'.
  destruct (find_or_create_user getpwuid us u).2 as [j|]; [|done].
  apply Forall_alter; [done|]. by intros x _ Hx.
Qed.

Lemma init_entry_users_ok st e : users_ok st → users_ok (init_entry getpwuid st e).
Proof.
  unfold users_ok, init_entry. intros Hst.
  destruct (observe e) as [[[[p u] ut] stt]|] eqn:Ho; [|done]. simpl.
  apply find_or_create_user_ok; [|done].
  observed_ranges Ho. lia.
Qed.

Lemma scan_entry_users_ok st e : users_ok st → users_ok (scan_entry getpwuid st e).
Proof.
  unfold users_ok, scan_entry. intros Hst.
  destruct (observe e) as [[[[p u] ut] stt]|] eqn:Ho; [|done].
  observed_ranges Ho.
  destruct (find_proc_info (proc_info st) p) as [[i pi]|] eqn:Hf.
  - rewrite (account_tracked _ _ _ _ _ _ _ _ Hf). simpl. by apply credited_ok.
  - rewrite (account_untracked _ _ _ _ _ _ Hf). simpl.
    by apply find_or_create_user_ok.
Qed.

End UserNames.

(** X14. At every tick of every run each user record holds a uid within
    [uid_t] other than the sentinel and a name of at most 63 characters,
    whatever the password database returns: [strncpy] and [snprintf] never
    fill [username[64]] beyond its terminator. *)
Theorem user_names_fit_buffer h n j x :
  users (sampled h n).1.1 !! j = Some x →
  (String.length (username x) ≤ 63)%nat ∧ 0 ≤ uid x < 4294967295.
Proof.
  intros Hj.
  assert (users_ok (sampled h n).1.1) as Hok.
  { apply (sampled_invariant h users_ok).
    - constructor.
    - intros st e. apply init_entry_users_ok.
    - intros st e. apply scan_entry_users_ok. }
  by eapply Forall_lookup_1 in Hok.
Qed.

(** ** Process records persist *)

Section Persistence.

Context (getpwuid : Z → option string).

Lemma records_kept_refl st : records_kept st st.
Proof. intros i pi Hi. by exists pi. Qed.

Lemma records_kept_trans st1 st2 st3 :
  records_kept st1 st2 → records_kept st2 st3 → records_kept st1 st3.
Proof.
  intros H12 H23 i pi Hi.
  destruct (H12 i pi Hi) as (pi2 & Hi2 & Hp2 & Hu2 & Hv2).
  destruct (H23 i pi2 Hi2) as (pi3 & Hi3 & Hp3 & Hu3 & Hv3).
  exists pi3. split; [done|]. unfold same_process. split_and!; congruence.
Qed.

Lemma init_entry_keeps_records st e : records_kept st (init_entry getpwuid st e).
Proof.
  intros i pi Hi. exists pi. split; [|done]. unfold init_entry.
  destruct (observe e) as [[[[p u] ut] stt]|]; [|done]. simpl.
  by apply add_proc_info_keeps.
Qed.

Lemma scan_entry_keeps_records st e : records_kept st (scan_entry getpwuid st e).
Proof.
  intros i pi Hi. unfold scan_entry.
  destruct (observe e) as [[[[p u] ut] stt]|]; [|by exists pi].
  destruct (find_proc_info (proc_info st) p) as [[i0 pi0]|] eqn:Hf.
  - rewrite (account_tracked _ _ _ _ _ _ _ _ Hf). simpl.
    destruct (decide (i0 = i)) as [->|Hne].
    + apply list_find_Some in Hf as (Hi0 & _ & _). simplify_eq.
      exists (advanced pi ut stt). split; [|done].
      apply list_lookup_insert_eq. by eapply lookup_lt_Some.
    + exists pi. by rewrite list_lookup_insert_ne.
  - rewrite (account_untracked _ _ _ _ _ _ Hf). simpl.
    exists pi. split; [|done]. by apply add_proc_info_keeps.
Qed.

Lemma foldl_keeps_records (f : state → dirent → state) es : ∀ st,
  (∀ st e, records_kept st (f st e)) → records_kept st (foldl f st es).
Proof.
  induction es as [|e es IH]; intros st Hf; simpl; [apply records_kept_refl|].
  eapply records_kept_trans; [apply Hf|by apply IH].
Qed.

End Persistence.

(** X5. A process record, once written, stays in its slot for the rest of
    the run with the same pid, the same uid and still valid: nothing is ever
    removed or invalidated, only the two counters change. *)
Theorem process_records_persist h n m i pi :
  (n ≤ m)%nat →
  proc_info (sampled h n).1.1 !! i = Some pi →
  ∃ pi', proc_info (sampled h m).1.1 !! i = Some pi' ∧
         pi_pid pi' = pi_pid pi ∧ pi_uid pi' = pi_uid pi ∧ valid pi' = valid pi.
Proof.
  intros Hnm. revert i pi. change (records_kept (sampled h n).1.1 (sampled h m).1.1).
  induction Hnm as [|m Hnm IH]; [apply records_kept_refl|].
  eapply records_kept_trans; [exact IH|].
  rewrite sampled_S. destruct (proc h (S m)) as [es|]; simpl.
  - apply foldl_keeps_records. apply scan_entry_keeps_records.
  - apply records_kept_refl.
Qed.

(** ** One record per pid *)

Section OneRecordPerPid.

Context (getpwuid : Z → option string).

Lemma untracked_pid_absent (ps : list proc_info_t) p :
  Forall proc_ok ps → find_proc_info ps p = None → p ∉ pi_pid <$> ps.
Proof.
  intros Hok Hf (pi & -> & Hin)%list_elem_of_fmap.
  apply list_find_None in Hf.
  eapply Forall_forall in Hf; [|done]. eapply Forall_forall in Hok; [|done].
  destruct Hok as (Hv & _). by apply Hf.
Qed.

Lemma add_proc_info_pids ps p u ut stt :
  pi_pid <$> add_proc_info ps p u ut stt = pi_pid <$> ps ∨
  pi_pid <$> add_proc_info ps p u ut stt = (pi_pid <$> ps) ++ [p].
Proof.
  unfold add_proc_info. case_match; [by left|]. right. by rewrite fmap_app.
Qed.

Lemma advanced_pids (ps : list proc_info_t) (i : nat) pi ut stt :
  ps !! i = Some pi →
  pi_pid <$> <[i := advanced pi ut stt]> ps = pi_pid <$> ps.
Proof.
  intros Hi. rewrite list_fmap_insert. simpl.
  apply list_insert_id. by rewrite list_lookup_fmap, Hi.
Qed.

Lemma scan_entry_procs_unique st e :
  procs_ok st → procs_unique st → procs_unique (scan_entry getpwuid st e).
Proof.
  unfold procs_ok, procs_unique, scan_entry. intros Hok Hst.
  destruct (observe e) as [[[[p u] ut] stt]|]; [|done].
  destruct (find_proc_info (proc_info st) p) as [[i pi]|] eqn:Hf.
  - rewrite (account_tracked _ _ _ _ _ _ _ _ Hf). simpl.
    apply list_find_Some in Hf as (Hi & _ & _). by rewrite advanced_pids.
  - rewrite (account_untracked _ _ _ _ _ _ Hf). simpl.
    destruct (add_proc_info_pids (proc_info st) p u ut stt) as [->| ->]; [done|].
    apply NoDup_app. split_and!; [done| |apply NoDup_singleton].
    intros q Hq Hq'%list_elem_of_singleton. subst q.
    by apply (untracked_pid_absent (proc_info st) p).
Qed.

Lemma initialize_procs_unique es : ∀ st,
  NoDup ((pi_pid <$> proc_info st) ++ observed_pids es) →
  NoDup (pi_pid <$> proc_info (foldl (init_entry getpwuid) st es)).
Proof.
  induction es as [|e es IH]; intros st Hnd; simpl.
  - unfold observed_pids in Hnd. simpl in Hnd. by rewrite app_nil_r in Hnd.
  - apply IH. unfold observed_pids in *. simpl in Hnd. unfold init_entry.
    destruct (observe e) as [[[[p u] ut] stt]|]; simpl in *; [|done].
    destruct (add_proc_info_pids (proc_info st) p u ut stt) as [->| ->].
    + apply NoDup_app in Hnd as (H1 & H2 & H3). apply NoDup_cons in H3 as [_ H3].
      apply NoDup_app. split_and!; [done| |done].
      intros q Hq Hq'. apply (H2 q Hq). by right.
    + by rewrite <- app_assoc.
Qed.

End OneRecordPerPid.

(** X6. When the baseline listing names every pid once, the process table
    holds at most one record per pid at every tick of the run: a scan adds
    a record only for a pid it does not find. *)
Theorem one_record_per_pid h n :
  NoDup (observed_pids (default [] (proc h 0%nat))) →
  NoDup (pi_pid <$> proc_info (sampled h n).1.1).
Proof.
  intros Hbase.
  assert (∀ k, procs_ok (sampled h k).1.1) as Hok.
  { apply (sampled_invariant h procs_ok).
    - constructor.
    - intros st e. apply init_entry_procs_ok.
    - intros st e. apply scan_entry_procs_ok. }
  induction n as [|n IH].
  - unfold sampled. simpl. destruct (proc h 0%nat) as [es|]; simpl in *.
    + by apply initialize_procs_unique.
    + constructor.
  - specialize (Hok n). rewrite sampled_S.
    destruct (proc h (S n)) as [es|]; simpl; [|done].
    revert IH Hok. generalize (sampled h n).1.1.
    induction es as [|e es IHes]; intros st Hu Hok; simpl; [done|].
    apply IHes; [by apply scan_entry_procs_unique | by apply scan_entry_procs_ok].
Qed.

(** ** Full tables *)

Section FullTables.

Context (getpwuid : Z → option string).

Lemma find_or_create_user_full us u :
  MAX_USERS ≤ Z.of_nat (length us) →
  (find_or_create_user getpwuid us u).1 = us ∧
  ((find_or_create_user getpwuid us u).2 = None ↔
   list_find (λ x, uid x = u) us = None).
Proof.
  intros Hfull. unfold find_or_create_user.
  destruct (list_find _ us) as [[i x]|] eqn:Hf; simpl; [done|].
  destruct (Z.leb_spec MAX_USERS (Z.of_nat (length us))); [done|lia].
Qed.

(** X2. Once the user table is full no user is added any more; a tracked
    process whose owner is not in the table then has its delta dropped,
    while its stored counters are still overwritten, so that delta is not
    credited later either. *)
Theorem full_user_table_drops_delta st e p u utime stime i pi :
  MAX_USERS ≤ num_users st →
  observe e = Some (p, u, utime, stime) →
  find_proc_info (proc_info st) p = Some (i, pi) →
  let st' := scan_entry getpwuid st e in
  uid <$> users st' = uid <$> users st ∧
  (list_find (λ x, uid x = u) (users st) = None → users st' = users st) ∧
  find_proc_info (proc_info st') p = Some (i, advanced pi utime stime).
Proof.
  intros Hfull Ho Hf st'. subst st'. unfold scan_entry. rewrite Ho.
  rewrite (account_tracked _ _ _ _ _ _ _ _ Hf). simpl.
  destruct (find_or_create_user_full (users st) u Hfull) as [Hus Hnone].
  split_and!.
  - by rewrite credited_uids, Hus.
  - intros Hn. unfold credited. rewrite (proj2 Hnone Hn). done.
  - by apply find_proc_info_advanced.
Qed.

(** X3. Once the process table is full, a process that is not in it is
    never recorded: the scan leaves the process table as it is, credits
    nobody, and the pid is still unknown at the next scan. *)
Theorem full_process_table_ignores_new st e p u utime stime :
  MAX_PROCS ≤ num_procs st →
  observe e = Some (p, u, utime, stime) →
  find_proc_info (proc_info st) p = None →
  let st' := scan_entry getpwuid st e in
  proc_info st' = proc_info st ∧
  find_proc_info (proc_info st') p = None ∧
  (∀ j x, users st !! j = Some x → users st' !! j = Some x) ∧
  (∀ j x, users st' !! j = Some x → users st !! j = None → cpu_time x = 0).
Proof.
  intros Hfull Ho Hf st'. subst st'. unfold scan_entry. rewrite Ho.
  rewrite (account_untracked _ _ _ _ _ _ Hf). simpl.
  assert (add_proc_info (proc_info st) p u utime stime = proc_info st) as ->.
  { unfold add_proc_info, num_procs in *.
    destruct (Z.leb_spec MAX_PROCS (Z.of_nat (length (proc_info st)))); [done|lia]. }
  split_and!; [done|done| |].
  - intros j x. apply find_or_create_user_keeps.
  - intros j x Hj Hn. by rewrite (find_or_create_user_new _ _ _ _ _ Hj Hn).
Qed.

End FullTables.

(** ** Successive samples of one process *)

Section SuccessiveSamples.

Context (getpwuid : Z → option string).

Lemma wrap64_idem x : wrap64 (wrap64 x) = wrap64 x.
Proof. unfold wrap64, ULLONG_MOD. by rewrite Z.mod_mod. Qed.

Lemma add_cpu_time_twice a b x :
  add_cpu_time b (add_cpu_time a x) = add_cpu_time (wrap64 (a + b)) x.
Proof.
  unfold add_cpu_time. simpl. f_equal. unfold wrap64, ULLONG_MOD.
  rewrite Zplus_mod_idemp_l, Zplus_mod_idemp_r. f_equal. lia.
Qed.

Lemma add_cpu_time_zero x : 0 ≤ cpu_time x < 2 ^ 64 → add_cpu_time 0 x = x.
Proof.
  intros Hx. destruct x as [u name t]. unfold add_cpu_time. simpl in *.
  f_equal. rewrite Z.add_0_r. by apply wrap64_small.
Qed.

Lemma list_find_uid_alter (us : list user_cpu_t) u d i x :
  list_find (λ x, uid x = u) us = Some (i, x) →
  list_find (λ x, uid x = u) (alter (add_cpu_time d) i us)
  = Some (i, add_cpu_time d x).
Proof.
  intros (Hi & Hu & Hlt)%list_find_Some. apply list_find_Some. split_and!.
  - by rewrite list_lookup_alter_eq, Hi.
  - done.
  - intros j y Hj Hji. rewrite list_lookup_alter_ne in Hj by lia. eauto.
Qed.

Lemma list_find_uid_snoc (us : list user_cpu_t) u x :
  list_find (λ x, uid x = u) us = None → uid x = u →
  list_find (λ x, uid x = u) (us ++ [x]) = Some (length us, x).
Proof.
  intros Hn Hx. apply list_find_Some. split_and!.
  - rewrite lookup_app_r by lia. by rewrite Nat.sub_diag.
  - done.
  - intros j y Hj Hji. rewrite lookup_app_l in Hj by done.
    apply list_find_None in Hn. by eapply Forall_lookup_1 in Hn.
Qed.

(** Crediting twice is crediting the sum, in 64-bit arithmetic. *)
Lemma credited_twice us u a b :
  credited getpwuid (credited getpwuid us u a) u b
  = credited getpwuid us u (wrap64 (a + b)).
Proof.
  unfold credited at 2 3.
  destruct (find_or_create_user_cases getpwuid us u) as [i x Hf|Hn Hfull|Hn Hroom].
  - rewrite (credited_owner _ _ _ _ _ _ (list_find_uid_alter us u a i x Hf)).
    rewrite list_alter_alter_eq. apply list_alter_ext; [|done].
    intros y _. apply add_cpu_time_twice.
  - unfold credited, find_or_create_user. rewrite Hn.
    by destruct (Z.leb_spec MAX_USERS (Z.of_nat (length us))); [|lia].
  - assert (∀ d, alter (add_cpu_time d) (length us) (us ++ [fresh_user getpwuid u])
                 = us ++ [add_cpu_time d (fresh_user getpwuid u)]) as Halt.
    { intros d. rewrite alter_app_r_alt by lia. by rewrite Nat.sub_diag. }
    rewrite !Halt.
    rewrite (credited_owner _ _ _ _ _ _
               (list_find_uid_snoc us u (add_cpu_time a (fresh_user getpwuid u)) Hn eq_refl)).
    rewrite alter_app_r_alt by lia. rewrite Nat.sub_diag. simpl.
    by rewrite add_cpu_time_twice.
Qed.

Lemma find_or_create_user_again us u :
  find_or_create_user getpwuid (find_or_create_user getpwuid us u).1 u
  = find_or_create_user getpwuid us u.
Proof.
  destruct (find_or_create_user_cases getpwuid us u) as [i x Hf|Hn Hfull|Hn Hroom].
  - done.
  - done.
  - unfold find_or_create_user at 1.
    rewrite (list_find_uid_snoc us u (fresh_user getpwuid u) Hn eq_refl).
    unfold find_or_create_user. rewrite Hn.
    by destruct (Z.leb_spec MAX_USERS (Z.of_nat (length us))); [lia|].
Qed.

Lemma credited_nothing us u :
  Forall (λ x, 0 ≤ cpu_time x < 2 ^ 64) us →
  credited getpwuid (find_or_create_user getpwuid us u).1 u 0
  = (find_or_create_user getpwuid us u).1.
Proof.
  intros Hus. unfold credited. rewrite find_or_create_user_again.
  pose proof (find_or_create_user_in_range getpwuid us u Hus) as Hus'.
  destruct (find_or_create_user getpwuid us u).2 as [j|]; [|done].
  apply list_eq. intros k. rewrite list_lookup_alter.
  case_decide as Hk; [|done]. subst k.
  destruct ((find_or_create_user getpwuid us u).1 !! j) as [x|] eqn:Hj; [|done].
  simpl. f_equal. apply add_cpu_time_zero.
  by eapply Forall_lookup_1 in Hus'.
Qed.

(** X12. Two successive samples of a tracked process whose counters do not
    go down leave the tables exactly as the second sample alone would: the
    per-sample deltas add up, in 64-bit arithmetic, to last minus first. *)
Theorem successive_samples_add_up st p u ut1 st1 ut2 st2 i pi :
  find_proc_info (proc_info st) p = Some (i, pi) →
  last_utime pi ≤ ut1 ≤ ut2 → last_stime pi ≤ st1 ≤ st2 →
  account getpwuid (account getpwuid st p u ut1 st1) p u ut2 st2
  = account getpwuid st p u ut2 st2.
Proof.
  intros Hf Hu Hs.
  rewrite (account_tracked _ st _ _ ut1 st1 _ _ Hf).
  rewrite (account_tracked _ st _ _ ut2 st2 _ _ Hf).
  pose proof (find_proc_info_advanced _ _ _ _ ut1 st1 Hf) as Hf1.
  rewrite (account_tracked _ {| proc_info := _; users := _ |} _ _ ut2 st2 _ _ Hf1). simpl.
  f_equal.
  - rewrite credited_twice. f_equal.
    unfold wrap64, ULLONG_MOD. rewrite <- Zplus_mod. f_equal. lia.
  - by rewrite list_insert_insert_eq.
Qed.

(** X11. Scanning an entry again with the same readings changes nothing:
    a process whose counters did not move contributes no ticks, whether it
    was already tracked or was recorded by the first of the two scans. *)
Theorem rescan_changes_nothing st e :
  users_in_range st →
  scan_entry getpwuid (scan_entry getpwuid st e) e = scan_entry getpwuid st e.
Proof.
  intros Hrange. unfold scan_entry.
  destruct (observe e) as [[[[p u] ut] stt]|]; [|done].
  destruct (find_proc_info (proc_info st) p) as [[i pi]|] eqn:Hf.
  - rewrite (account_tracked _ st _ _ _ _ _ _ Hf).
    pose proof (find_proc_info_advanced _ _ _ _ ut stt Hf) as Hf1.
    rewrite (account_tracked _ {| proc_info := _; users := _ |} _ _ _ _ _ _ Hf1). simpl.
    rewrite !Z.sub_diag. simpl. f_equal.
    + rewrite credited_twice. f_equal. rewrite Z.add_0_r. apply wrap64_idem.
    + by rewrite list_insert_insert_eq.
  - rewrite (account_untracked _ st _ _ _ _ Hf).
    unfold add_proc_info.
    destruct (Z.leb_spec MAX_PROCS (Z.of_nat (length (proc_info st)))) as [Hfull|Hroom].
    + rewrite (account_untracked _ {| proc_info := _; users := _ |}) by done. simpl.
      rewrite find_or_create_user_again. unfold add_proc_info.
      by destruct (Z.leb_spec MAX_PROCS (Z.of_nat (length (proc_info st)))); [|lia].
    + pose proof (find_proc_info_add (proc_info st) p u ut stt Hf Hroom) as Hf1.
      unfold add_proc_info in Hf1.
      destruct (Z.leb_spec MAX_PROCS (Z.of_nat (length (proc_info st)))); [lia|].
      rewrite (account_tracked _ {| proc_info := _; users := _ |} _ _ _ _ _ _ Hf1). simpl.
      rewrite !Z.sub_diag. simpl. f_equal.
      * change (wrap64 0) with 0. by apply credited_nothing.
      * rewrite insert_app_r_alt by lia. by rewrite Nat.sub_diag.
Qed.

End SuccessiveSamples.

(** ** Directory names and pids *)

Section DirectoryNames.

Lemma to_int_small v : 0 ≤ v < 2 ^ 31 → to_int (strtol_val false v) = v.
Proof.
  intros Hv. unfold strtol_val, to_int, LONG_MAX, LONG_MIN.
  rewrite Z.min_r, Z.max_r by lia. rewrite Z.mod_small by lia. lia.
Qed.

(** X7. A directory name that [is_pid_dir] accepts is read by [atoi] as
    its decimal value, leading zeros included, as long as that value is an
    [int]; the pid is then never negative. *)
Theorem accepted_name_is_its_decimal (name : string) :
  is_pid_dir name = true →
  decimal (chars name) < 2 ^ 31 →
  atoi name = decimal (chars name) ∧ 0 ≤ atoi name.
Proof.
  unfold is_pid_dir, atoi. fold (chars name). intros Hd Hv.
  pose proof (decimal_nonneg _ Hd) as Hnn.
  destruct (chars name) as [|c t] eqn:Hn.
  - by vm_compute.
  - rewrite <- (app_nil_r (c :: t)) at 1 3.
    rewrite scan_number_unsigned by done.
    rewrite to_int_small by lia. lia.
Qed.

Lemma pretty_N_go_digits x : ∀ s,
  forallb isdigit (chars s) = true →
  forallb isdigit (chars (pretty_N_go x s)) = true.
Proof.
  induction (N.lt_wf_0 x) as [x _ IH]. intros s Hs.
  destruct (decide (x = 0)%N) as [->|Hx]; [by rewrite pretty_N_go_0|].
  rewrite pretty_N_go_step by lia. apply IH; [apply N.div_lt; lia|].
  simpl. rewrite Hs.
  by destruct (pretty_N_char_digit (x `mod` 10)%N) as [-> _]; [apply N.mod_lt|].
Qed.

(** X16. The name the kernel gives the directory of pid [n], its decimal
    numeral, is accepted by [is_pid_dir] and read back as [n] by [atoi]. *)
Theorem pid_directory_round_trip (n : Z) :
  0 < n < 2 ^ 31 → is_pid_dir (pretty n) = true ∧ atoi (pretty n) = n.
Proof.
  intros Hn. split; [|by apply atoi_pretty].
  unfold is_pid_dir. destruct n as [|p|p]; try lia.
  unfold pretty, pretty_Z, pretty, pretty_positive, pretty, pretty_N.
  rewrite decide_False by done. by apply pretty_N_go_digits.
Qed.

End DirectoryNames.

(** ** The lines of a status record *)

Section StatusLines.

Lemma fgets_line line : ∀ n rest,
  no_newline line → (length line < n)%nat →
  fgets n (line ++ "010"%char :: rest) = (line ++ ["010"%char], rest).
Proof.
  unfold no_newline.
  induction line as [|c line IH]; intros n rest Hnl Hlen;
    (destruct n as [|n]; [simpl in Hlen; lia|]); simpl in *.
  - done.
  - apply andb_true_iff in Hnl as [Hc Hnl].
    apply negb_true_iff in Hc. rewrite Hc. rewrite IH by (done || lia). done.
Qed.

Lemma fgets_piece piece : ∀ rest,
  no_newline piece → fgets (length piece) (piece ++ rest) = (piece, rest).
Proof.
  unfold no_newline.
  induction piece as [|c piece IH]; intros rest Hnl; simpl in *.
  - by destruct rest.
  - apply andb_true_iff in Hnl as [Hc Hnl].
    apply negb_true_iff in Hc. rewrite Hc. by rewrite IH.
Qed.

Lemma fgets_tail s : ∀ n,
  no_newline s → (length s ≤ n)%nat → fgets n s = (s, []).
Proof.
  unfold no_newline.
  induction s as [|c s IH]; intros n Hnl Hlen; [by destruct n|].
  destruct n as [|n]; simpl in *; [lia|].
  apply andb_true_iff in Hnl as [Hc Hnl].
  apply negb_true_iff in Hc. rewrite Hc. rewrite IH by (done || lia). done.
Qed.

Lemma one_read_fgets l rest : one_read l → l ≠ [] ∧ fgets 255 (l ++ rest) = (l, rest).
Proof.
  intros [(line & -> & Hnl & Hlen)|[Hnl Hlen]].
  - split; [by destruct line|].
    rewrite <- app_assoc. exact (fgets_line line 255 rest Hnl Hlen).
  - split; [by destruct l|]. rewrite <- Hlen. by apply fgets_piece.
Qed.

Lemma uid_loop_step l rest :
  l ≠ [] → fgets 255 (l ++ rest) = (l, rest) →
  get_process_uid (Some (l ++ rest))
  = if is_uid_line l then
      match scan_conv conv_u (drop 4 l) with
      | Some (uid, _) => uid
      | None => UID_NONE
      end
    else get_process_uid (Some rest).
Proof.
  intros Hl Hfgets. unfold get_process_uid.
  destruct l as [|c l]; [done|].
  change (length ((c :: l) ++ rest)) with (S (length (l ++ rest))).
  change ((c :: l) ++ rest) with (c :: (l ++ rest)) in *.
  cbn [uid_loop]. rewrite Hfgets.
  destruct (is_uid_line (c :: l)); [done|].
  apply uid_loop_enough; [|done]. rewrite length_app. lia.
Qed.

(** X8. A line of the status record that does not begin with "Uid:" is
    passed over, and so is each 255-character piece of a longer line: the
    owner lookup gives what it gives on the rest of the record. *)
Theorem uid_lookup_skips_other_lines (l rest : list ascii) :
  one_read l → is_uid_line l = false →
  get_process_uid (Some (l ++ rest)) = get_process_uid (Some rest).
Proof.
  intros [Hl Hfgets]%(one_read_fgets l rest) Hnot.
  rewrite uid_loop_step by done. by rewrite Hnot.
Qed.

(** X9. The first line that begins with "Uid:" decides: the owner is the
    first number on it (the real uid), and nothing after that line is
    read. *)
Theorem first_uid_line_decides (sep ds tail rest : list ascii) :
  let line := chars "Uid:" ++ sep ++ ds ++ tail in
  no_newline line → (length line < 255)%nat →
  forallb isspace sep = true → is_unsigned ds = true → at_non_digit tail →
  decimal ds < 2 ^ 32 →
  get_process_uid (Some (line ++ "010"%char :: rest)) = decimal ds.
Proof.
  intros line Hnl Hlen Hsep Hds Htail Hv. subst line.
  replace ((chars "Uid:" ++ sep ++ ds ++ tail) ++ "010"%char :: rest)
    with (((chars "Uid:" ++ sep ++ ds ++ tail) ++ ["010"%char]) ++ rest)
    by (by rewrite <- app_assoc).
  rewrite uid_loop_step.
  - change (is_uid_line ((chars "Uid:" ++ sep ++ ds ++ tail) ++ ["010"%char])) with true.
    cbn iota.
    change (drop 4 ((chars "Uid:" ++ sep ++ ds ++ tail) ++ ["010"%char]))
      with ((sep ++ ds ++ tail) ++ ["010"%char]).
    unfold scan_conv. rewrite <- scan_number_skip_ws.
    rewrite <- !app_assoc. rewrite skip_ws_app; [|done|].
    + rewrite scan_number_unsigned; [|done|].
      * simpl. pose proof (decimal_nonneg _ (is_unsigned_digits _ Hds)).
        rewrite strtoul_val_exact by lia. unfold wrap32, UINT_MOD.
        apply Z.mod_small. lia.
      * destruct tail; [by vm_compute|done].
    + destruct ds as [|d ds]; [done|]. simpl in *.
      apply andb_true_iff in Hds as [Hd _]. by apply isdigit_not_space.
  - done.
  - rewrite <- app_assoc.
    exact (fgets_line (chars "Uid:" ++ sep ++ ds ++ tail) 255 rest Hnl Hlen).
Qed.

Lemma no_uid_line_sentinel (ls : list (list ascii)) (last : list ascii) :
  Forall one_read ls → Forall (λ l, is_uid_line l = false) ls →
  no_newline last → (length last < 255)%nat → is_uid_line last = false →
  get_process_uid (Some (concat ls ++ last)) = UID_NONE.
Proof.
  intros Hls Hnot Hnl Hlen Hlast.
  induction Hls as [|l ls Hl Hls IH].
  - change (get_process_uid (Some last) = UID_NONE).
    destruct last as [|c last]; [done|].
    assert (fgets 255 ((c :: last) ++ []) = (c :: last, [])) as Hfgets.
    { rewrite app_nil_r. apply fgets_tail; [done|lia]. }
    pose proof (uid_loop_step (c :: last) [] ltac:(done) Hfgets) as Hstep.
    rewrite app_nil_r, Hlast in Hstep. by rewrite Hstep.
  - apply Forall_cons in Hnot as [Hl' Hnot].
    destruct (one_read_fgets l (concat ls ++ last) Hl) as [Hne Hfgets].
    change (concat (l :: ls) ++ last) with ((l ++ concat ls) ++ last).
    rewrite <- app_assoc, uid_loop_step by done. rewrite Hl'. by apply IH.
Qed.

(** X17. A status record in which no line begins with "Uid:" (nor any
    255-character piece of a longer line) gives the "unknown owner" value,
    and the entry then changes nothing in either table. *)
Theorem status_without_uid_line (getpwuid : Z → option string) (st : state)
    (name : string) (stat_file : option (list ascii))
    (ls : list (list ascii)) (last : list ascii) :
  Forall one_read ls → Forall (λ l, is_uid_line l = false) ls →
  no_newline last → (length last < 255)%nat → is_uid_line last = false →
  get_process_uid (Some (concat ls ++ last)) = 4294967295 ∧
  scan_entry getpwuid st
    {| d_name := name; status := Some (concat ls ++ last); stat := stat_file |} = st ∧
  init_entry getpwuid st
    {| d_name := name; status := Some (concat ls ++ last); stat := stat_file |} = st.
Proof.
  intros Hls Hnot Hnl Hlen Hlast.
  pose proof (no_uid_line_sentinel ls last Hls Hnot Hnl Hlen Hlast) as Hu.
  split; [by rewrite Hu|].
  unfold scan_entry, init_entry, observe. cbn [d_name status stat].
  rewrite Hu. by destruct (negb (is_pid_dir name)).
Qed.

End StatusLines.

(** ** The baseline *)

(** X18. When the baseline scan is over, every user record holds zero
    ticks: what a process consumed before the monitor started is never
    counted. *)
Theorem baseline_totals_are_zero (h : host) :
  Forall (λ x, cpu_time x = 0) (users (sampled h 0).1.1).
Proof.
  apply Forall_lookup. intros j x Hj. unfold sampled in Hj. simpl in Hj.
  by apply (initialize_new_users_zero (getpwuid h) initial_state (proc h 0%nat) j x).
Qed.

(** ** The milliseconds column *)

Section MillisecondsColumn.

Context `{Qsort} (clk_tck : Z).

Lemma omap_row_ms_imap (l : list user_cpu_t) : ∀ g : nat → user_cpu_t → line,
  (∀ k x, row_ms (g k x) = Some (ticks_to_ms clk_tck (cpu_time x))) →
  omap row_ms (imap g l) = (λ x, ticks_to_ms clk_tck (cpu_time x)) <$> l.
Proof.
  induction l as [|x l IH]; intros g Hg; [done|].
  rewrite imap_cons. simpl. rewrite Hg. f_equal. apply IH. intros k y. apply Hg.
Qed.

Lemma ticks_to_ms_mono a b :
  0 < clk_tck < 2 ^ 63 → 0 ≤ a ≤ b → b * 1000 < 2 ^ 64 →
  ticks_to_ms clk_tck a ≤ ticks_to_ms clk_tck b.
Proof.
  intros Hc Hab Hb. unfold ticks_to_ms.
  rewrite !wrap64_small by lia. apply Z.div_le_mono; lia.
Qed.

Lemma sorted_ms (l : list user_cpu_t) :
  0 < clk_tck < 2 ^ 63 →
  Forall (λ x, 0 ≤ cpu_time x ∧ cpu_time x * 1000 < 2 ^ 64) l →
  StronglySorted more_ticks l →
  StronglySorted (λ a b, b ≤ a) ((λ x, ticks_to_ms clk_tck (cpu_time x)) <$> l).
Proof.
  intros Hc Hl Hs. induction Hs as [|x l Hs IH Hx]; [constructor|].
  apply Forall_cons in Hl as [Hxr Hl]. simpl. constructor; [by apply IH|].
  apply Forall_fmap, Forall_forall. intros y Hy. simpl.
  eapply Forall_forall in Hx; [|done]. eapply Forall_forall in Hl; [|done].
  unfold more_ticks in Hx. apply ticks_to_ms_mono; lia.
Qed.

(** X15. When no accumulated total times 1000 exceeds 2^64-1, the
    milliseconds printed in the report never increase from one row to the
    next: the order by ticks is also the order by milliseconds. *)
Theorem report_milliseconds_descend (us : list user_cpu_t) :
  0 < clk_tck < 2 ^ 63 →
  Forall (λ x, 0 ≤ cpu_time x ∧ cpu_time x * 1000 < 2 ^ 64) us →
  StronglySorted (λ a b, b ≤ a) (omap row_ms (print_summary clk_tck us).2).
Proof.
  intros Hc Hus. unfold print_summary.
  destruct (print_rows clk_tck 0 (qsort compare_users us)) as [rows rank] eqn:Hrows.
  destruct (print_rows_spec clk_tck (qsort compare_users us) 0) as [Hs|?]; [|lia].
  rewrite Hrows in Hs. injection Hs as -> ->. simpl.
  rewrite omap_app.
  replace (omap row_ms (if 0 + Z.of_nat (length (filter has_ticks (qsort compare_users us))) =? 0
                        then [NoUsage] else [])) with (@nil Z) by (by case_match).
  rewrite app_nil_r, omap_row_ms_imap by done.
  apply sorted_ms; [done| |].
  - apply Forall_forall. intros x [_ Hx]%list_elem_of_filter.
    rewrite qsort_perm in Hx. by eapply Forall_forall in Hus.
  - apply StronglySorted_filter_keep.
    eapply StronglySorted_weaken; [|apply qsort_sorted, compare_users_consistent].
    intros a b. apply compare_users_le.
Qed.

End MillisecondsColumn.

(** ** The invariants and reader properties on sample inputs *)

Lemma observe_in_range_witness :
  observe (process 10 7 8 9) = Some (10, 7, 8, 9) ∧
  (- 2 ^ 31 ≤ 10 < 2 ^ 31 ∧ 0 ≤ 7 < 4294967295 ∧
   0 ≤ 8 < 2 ^ 64 ∧ 0 ≤ 9 < 2 ^ 64).
Proof.
  split; [reflexivity|].
  exact (observe_in_range (process 10 7 8 9) 10 7 8 9 eq_refl).
Defined.

Lemma process_records_well_formed_witness :
  proc_info (sampled busy_host 1).1.1 !! 1%nat
  = Some {| pi_pid := 20; pi_uid := 8; last_utime := 4; last_stime := 1;
            valid := true |} ∧
  (true = true ∧ - 2 ^ 31 ≤ 20 < 2 ^ 31 ∧ 0 ≤ 8 < 4294967295 ∧
   0 ≤ 4 < 2 ^ 64 ∧ 0 ≤ 1 < 2 ^ 64).
Proof.
  split; [reflexivity|].
  exact (process_records_well_formed busy_host 1 1
           {| pi_pid := 20; pi_uid := 8; last_utime := 4; last_stime := 1;
              valid := true |} eq_refl).
Defined.

Lemma user_names_fit_buffer_witness :
  users (sampled busy_host 1).1.1 !! 0%nat
  = Some {| uid := 7; username := "alice"; cpu_time := 7 |} ∧
  ((String.length "alice" ≤ 63)%nat ∧ 0 ≤ 7 < 4294967295).
Proof.
  split; [reflexivity|].
  exact (user_names_fit_buffer busy_host 1 0
           {| uid := 7; username := "alice"; cpu_time := 7 |} eq_refl).
Defined.

Lemma process_records_persist_witness :
  (0 ≤ 2)%nat ∧
  proc_info (sampled busy_host 0).1.1 !! 0%nat
  = Some {| pi_pid := 10; pi_uid := 7; last_utime := 5; last_stime := 5;
            valid := true |} ∧
  ∃ pi', proc_info (sampled busy_host 2).1.1 !! 0%nat = Some pi' ∧
         pi_pid pi' = 10 ∧ pi_uid pi' = 7 ∧ valid pi' = true.
Proof.
  split; [lia|]. split; [reflexivity|].
  exact (process_records_persist busy_host 0 2 0
           {| pi_pid := 10; pi_uid := 7; last_utime := 5; last_stime := 5;
              valid := true |} ltac:(lia) eq_refl).
Defined.

Lemma one_record_per_pid_witness :
  NoDup (observed_pids (default [] (proc busy_host 0%nat))) ∧
  NoDup (pi_pid <$> proc_info (sampled busy_host 2).1.1).
Proof.
  assert (NoDup (observed_pids (default [] (proc busy_host 0%nat)))) as Hnd.
  { assert (observed_pids (default [] (proc busy_host 0%nat)) = [10; 20]) as ->
      by reflexivity.
    apply NoDup_cons. split; [|apply NoDup_singleton].
    intros [=]%list_elem_of_singleton. }
  split; [exact Hnd|].
  exact (one_record_per_pid busy_host 2 Hnd).
Defined.

Lemma full_user_table_drops_delta_witness :
  MAX_USERS ≤ num_users st_crowded ∧
  observe (process 10 5000 8 9) = Some (10, 5000, 8, 9) ∧
  find_proc_info (proc_info st_crowded) 10
  = Some (0%nat, {| pi_pid := 10; pi_uid := 7; last_utime := 5;
                    last_stime := 5; valid := true |}) ∧
  (uid <$> users (scan_entry no_passwd st_crowded (process 10 5000 8 9))
   = uid <$> users st_crowded ∧
   (list_find (λ x, uid x = 5000) (users st_crowded) = None →
    users (scan_entry no_passwd st_crowded (process 10 5000 8 9))
    = users st_crowded) ∧
   find_proc_info
     (proc_info (scan_entry no_passwd st_crowded (process 10 5000 8 9))) 10
   = Some (0%nat,
           advanced {| pi_pid := 10; pi_uid := 7; last_utime := 5;
                       last_stime := 5; valid := true |} 8 9)).
Proof.
  assert (MAX_USERS ≤ num_users st_crowded) as Hfull.
  { unfold num_users, st_crowded, crowded_users. cbn [users].
    rewrite length_fmap, length_seq, Z2Nat.id; done. }
  split; [exact Hfull|]. split; [reflexivity|]. split; [reflexivity|].
  exact (full_user_table_drops_delta no_passwd st_crowded (process 10 5000 8 9)
           10 5000 8 9 0
           {| pi_pid := 10; pi_uid := 7; last_utime := 5; last_stime := 5;
              valid := true |} Hfull eq_refl eq_refl).
Defined.

Lemma full_process_table_ignores_new_witness :
  MAX_PROCS ≤ num_procs st_packed ∧
  observe (process 70000 8 3 4) = Some (70000, 8, 3, 4) ∧
  find_proc_info (proc_info st_packed) 70000 = None ∧
  (proc_info (scan_entry no_passwd st_packed (process 70000 8 3 4))
   = proc_info st_packed ∧
   find_proc_info
     (proc_info (scan_entry no_passwd st_packed (process 70000 8 3 4))) 70000
   = None ∧
   (∀ j x, users st_packed !! j = Some x →
           users (scan_entry no_passwd st_packed (process 70000 8 3 4)) !! j
           = Some x) ∧
   (∀ j x, users (scan_entry no_passwd st_packed (process 70000 8 3 4)) !! j
           = Some x →
           users st_packed !! j = None → cpu_time x = 0)).
Proof.
  assert (MAX_PROCS ≤ num_procs st_packed) as Hfull by (vm_compute; discriminate).
  assert (find_proc_info (proc_info st_packed) 70000 = None) as Hnew
    by (vm_compute; reflexivity).
  split; [exact Hfull|]. split; [reflexivity|]. split; [exact Hnew|].
  exact (full_process_table_ignores_new no_passwd st_packed (process 70000 8 3 4)
           70000 8 3 4 Hfull eq_refl Hnew).
Defined.

Lemma successive_samples_add_up_witness :
  find_proc_info (proc_info st_c1) 10
  = Some (0%nat, {| pi_pid := 10; pi_uid := 7; last_utime := 50;
                    last_stime := 9; valid := true |}) ∧
  50 ≤ 55 ≤ 60 ∧ 9 ≤ 9 ≤ 12 ∧
  account no_passwd (account no_passwd st_c1 10 7 55 9) 10 7 60 12
  = account no_passwd st_c1 10 7 60 12.
Proof.
  split; [reflexivity|]. split; [lia|]. split; [lia|].
  exact (successive_samples_add_up no_passwd st_c1 10 7 55 9 60 12 0
           {| pi_pid := 10; pi_uid := 7; last_utime := 50; last_stime := 9;
              valid := true |} eq_refl ltac:(simpl; lia) ltac:(simpl; lia)).
Defined.

Lemma rescan_changes_nothing_witness :
  users_in_range st_c1 ∧
  scan_entry no_passwd (scan_entry no_passwd st_c1 (process 10 7 60 12))
    (process 10 7 60 12)
  = scan_entry no_passwd st_c1 (process 10 7 60 12).
Proof.
  assert (users_in_range st_c1) as Hr.
  { apply Forall_cons. split; [simpl; lia|apply Forall_nil_2]. }
  split; [exact Hr|].
  exact (rescan_changes_nothing no_passwd st_c1 (process 10 7 60 12) Hr).
Defined.

Lemma accepted_name_is_its_decimal_witness :
  is_pid_dir "4711" = true ∧ decimal (chars "4711") < 2 ^ 31 ∧
  (atoi "4711" = decimal (chars "4711") ∧ 0 ≤ atoi "4711").
Proof.
  split; [reflexivity|]. split; [reflexivity|].
  exact (accepted_name_is_its_decimal "4711" eq_refl eq_refl).
Defined.

Lemma pid_directory_round_trip_witness :
  0 < 4711 < 2 ^ 31 ∧ (is_pid_dir (pretty 4711) = true ∧ atoi (pretty 4711) = 4711).
Proof.
  split; [lia|]. exact (pid_directory_round_trip 4711 ltac:(lia)).
Defined.

Lemma uid_lookup_skips_other_lines_witness :
  one_read (name_line ++ ["010"%char]) ∧
  is_uid_line (name_line ++ ["010"%char]) = false ∧
  get_process_uid (Some ((name_line ++ ["010"%char]) ++ status_text 7))
  = get_process_uid (Some (status_text 7)).
Proof.
  assert (one_read (name_line ++ ["010"%char])) as Hl.
  { left. exists name_line. split; [reflexivity|]. split; [reflexivity|].
    vm_compute. lia. }
  split; [exact Hl|]. split; [reflexivity|].
  exact (uid_lookup_skips_other_lines (name_line ++ ["010"%char]) (status_text 7)
           Hl eq_refl).
Defined.

Lemma first_uid_line_decides_witness :
  no_newline (chars "Uid:" ++ chars tab ++ chars "1000" ++ uid_tail) ∧
  (length (chars "Uid:" ++ chars tab ++ chars "1000" ++ uid_tail) < 255)%nat ∧
  forallb isspace (chars tab) = true ∧ is_unsigned (chars "1000") = true ∧
  at_non_digit uid_tail ∧ decimal (chars "1000") < 2 ^ 32 ∧
  get_process_uid
    (Some ((chars "Uid:" ++ chars tab ++ chars "1000" ++ uid_tail)
           ++ "010"%char :: gid_line))
  = decimal (chars "1000").
Proof.
  assert (length (chars "Uid:" ++ chars tab ++ chars "1000" ++ uid_tail) < 255)%nat
    as Hlen by (vm_compute; lia).
  split; [reflexivity|]. split; [exact Hlen|]. split; [reflexivity|].
  split; [reflexivity|]. split; [reflexivity|]. split; [reflexivity|].
  exact (first_uid_line_decides (chars tab) (chars "1000") uid_tail gid_line
           eq_refl Hlen eq_refl eq_refl eq_refl eq_refl).
Defined.

Lemma status_without_uid_line_witness :
  Forall one_read [name_line ++ ["010"%char]; gid_line ++ ["010"%char]] ∧
  Forall (λ l, is_uid_line l = false)
         [name_line ++ ["010"%char]; gid_line ++ ["010"%char]] ∧
  no_newline (chars "Threads: 1") ∧ (length (chars "Threads: 1") < 255)%nat ∧
  is_uid_line (chars "Threads: 1") = false ∧
  (get_process_uid
     (Some (concat [name_line ++ ["010"%char]; gid_line ++ ["010"%char]]
            ++ chars "Threads: 1")) = 4294967295 ∧
   scan_entry no_passwd st_c1
     {| d_name := "10";
        status := Some (concat [name_line ++ ["010"%char]; gid_line ++ ["010"%char]]
                        ++ chars "Threads: 1");
        stat := Some (stat_text 10 60 12) |} = st_c1 ∧
   init_entry no_passwd st_c1
     {| d_name := "10";
        status := Some (concat [name_line ++ ["010"%char]; gid_line ++ ["010"%char]]
                        ++ chars "Threads: 1");
        stat := Some (stat_text 10 60 12) |} = st_c1).
Proof.
  assert (Forall one_read [name_line ++ ["010"%char]; gid_line ++ ["010"%char]])
    as Hls.
  { apply Forall_cons. split; [|apply Forall_cons; split; [|apply Forall_nil_2]].
    - left. exists name_line. split; [reflexivity|]. split; [reflexivity|].
      vm_compute. lia.
    - left. exists gid_line. split; [reflexivity|]. split; [reflexivity|].
      vm_compute. lia. }
  assert (Forall (λ l, is_uid_line l = false)
            [name_line ++ ["010"%char]; gid_line ++ ["010"%char]]) as Hnot.
  { apply Forall_cons. split; [reflexivity|].
    apply Forall_cons. split; [reflexivity|apply Forall_nil_2]. }
  assert (length (chars "Threads: 1") < 255)%nat as Hlen by (vm_compute; lia).
  split; [exact Hls|]. split; [exact Hnot|]. split; [reflexivity|].
  split; [exact Hlen|]. split; [reflexivity|].
  exact (status_without_uid_line no_passwd st_c1 "10" (Some (stat_text 10 60 12))
           [name_line ++ ["010"%char]; gid_line ++ ["010"%char]]
           (chars "Threads: 1") Hls Hnot eq_refl Hlen eq_refl).
Defined.

Lemma report_milliseconds_descend_witness :
  0 < 100 < 2 ^ 63 ∧
  Forall (λ x, 0 ≤ cpu_time x ∧ cpu_time x * 1000 < 2 ^ 64) report_users ∧
  StronglySorted (λ a b, b ≤ a) (omap row_ms (print_summary 100 report_users).2).
Proof.
  assert (Forall (λ x, 0 ≤ cpu_time x ∧ cpu_time x * 1000 < 2 ^ 64) report_users)
    as Hus.
  { repeat (apply Forall_cons; split; [simpl; lia|]). apply Forall_nil_2. }
  split; [lia|]. split; [exact Hus|].
  exact (report_milliseconds_descend 100 report_users ltac:(lia) Hus).
Defined.

(** ** What one tick adds to one user *)

Section PerUserTotals.

Context (getpwuid : Z → option string).

Lemma wrap64_add_l a b : wrap64 (wrap64 a + b) = wrap64 (a + b).
Proof. unfold wrap64, ULLONG_MOD. by rewrite Zplus_mod_idemp_l. Qed.

Lemma wrap64_add_r a b : wrap64 (a + wrap64 b) = wrap64 (a + b).
Proof. unfold wrap64, ULLONG_MOD. by rewrite Zplus_mod_idemp_r. Qed.

Lemma entry_delta_nonneg u st e : 0 ≤ entry_delta u st e.
Proof.
  unfold entry_delta. destruct (observe e) as [[[[p u'] ut] stt]|]; [|done].
  destruct (u' =? u); [|done].
  destruct (find_proc_info (proc_info st) p) as [[i pi]|]; lia.
Qed.

Lemma scan_delta_nonneg u es : ∀ st, 0 ≤ scan_delta getpwuid u st es.
Proof.
  induction es as [|e es IH]; intros st; simpl; [done|].
  pose proof (entry_delta_nonneg u st e). specialize (IH (scan_entry getpwuid st e)). lia.
Qed.

Lemma unique_slot (us : list user_cpu_t) i j x y :
  NoDup (uid <$> us) → us !! i = Some x → us !! j = Some y → uid x = uid y → i = j.
Proof.
  intros Hnd Hi Hj Hu. eapply NoDup_lookup; [done| |].
  - by rewrite list_lookup_fmap, Hi.
  - rewrite list_lookup_fmap, Hj. simpl. by rewrite Hu.
Qed.

(** One entry: every record keeps its slot, its uid and its name, and its
    total grows by what the entry adds for that uid, modulo 2^64. *)
Lemma scan_entry_slot st e j x :
  users_unique st → users_in_range st → users st !! j = Some x →
  ∃ x', users (scan_entry getpwuid st e) !! j = Some x' ∧
        uid x' = uid x ∧ username x' = username x ∧
        cpu_time x' = wrap64 (cpu_time x + entry_delta (uid x) st e).
Proof.
  unfold users_unique, users_in_range, scan_entry, entry_delta. intros Hnd Hr Hj.
  assert (cpu_time x = wrap64 (cpu_time x + 0)) as Hsame.
  { eapply Forall_lookup_1 in Hr; [|done]. simpl in Hr.
    rewrite Z.add_0_r. symmetry. by apply wrap64_small. }
  destruct (observe e) as [[[[p u] ut] stt]|]; [|by eauto].
  destruct (find_proc_info (proc_info st) p) as [[i pi]|] eqn:Hf.
  - rewrite (account_tracked _ _ _ _ _ _ _ _ Hf). simpl.
    destruct (Z.eqb_spec u (uid x)) as [->|Hne].
    + assert (x ∈ users st) as Hin by (by eapply list_elem_of_lookup_2).
      destruct (list_find_elem_of (λ y, uid y = uid x) (users st) x Hin eq_refl)
        as [[j0 x0] Hfind].
      pose proof Hfind as (Hj0 & Hu0 & _)%list_find_Some.
      assert (j0 = j) as -> by (by eapply unique_slot).
      rewrite (credited_owner _ _ _ _ _ _ Hfind).
      rewrite list_lookup_alter_eq, Hj. simpl. eexists; split; [done|].
      simpl. split_and!; try done. by rewrite wrap64_add_r.
    + rewrite (credited_other getpwuid _ u _ j x Hj) by done. eauto.
  - rewrite (account_untracked _ _ _ _ _ _ Hf). simpl.
    rewrite (find_or_create_user_keeps getpwuid _ u j x Hj).
    exists x. split_and!; try done. by destruct (u =? uid x).
Qed.

Lemma scan_fold_unique es : ∀ st,
  users_unique st → users_unique (foldl (scan_entry getpwuid) st es).
Proof.
  induction es as [|e es IH]; intros st Hst; simpl; [done|].
  by apply IH, scan_entry_unique.
Qed.

Lemma scan_fold_in_range es : ∀ st,
  users_in_range st → users_in_range (foldl (scan_entry getpwuid) st es).
Proof.
  induction es as [|e es IH]; intros st Hst; simpl; [done|].
  by apply IH, scan_entry_in_range.
Qed.

(** One scan: the same, with the sum of what its entries add. *)
Lemma scan_slot es : ∀ st j x,
  users_unique st → users_in_range st → users st !! j = Some x →
  ∃ x', users (foldl (scan_entry getpwuid) st es) !! j = Some x' ∧
        uid x' = uid x ∧ username x' = username x ∧
        cpu_time x' = wrap64 (cpu_time x + scan_delta getpwuid (uid x) st es).
Proof.
  induction es as [|e es IH]; intros st j x Hnd Hr Hj; simpl.
  - exists x. split_and!; try done.
    eapply Forall_lookup_1 in Hr; [|done]. simpl in Hr.
    rewrite Z.add_0_r. symmetry. by apply wrap64_small.
  - destruct (scan_entry_slot st e j x Hnd Hr Hj) as (x1 & Hj1 & Hu1 & Hn1 & Hc1).
    destruct (IH (scan_entry getpwuid st e) j x1) as (x2 & Hj2 & Hu2 & Hn2 & Hc2);
      [by apply scan_entry_unique | by apply scan_entry_in_range | done |].
    exists x2. split_and!; [done|congruence|congruence|].
    rewrite Hc2, Hc1, Hu1, wrap64_add_l. f_equal. lia.
Qed.

(** A record that appears at an entry holds what that entry adds for its
    uid: it is created with zero ticks and credited at once. *)
Lemma scan_entry_new st e j x :
  users st !! j = None → users (scan_entry getpwuid st e) !! j = Some x →
  cpu_time x = wrap64 (entry_delta (uid x) st e).
Proof.
  unfold scan_entry, entry_delta. intros Hn Hj.
  destruct (observe e) as [[[[p u] ut] stt]|]; [|congruence].
  destruct (find_proc_info (proc_info st) p) as [[i pi]|] eqn:Hf.
  - rewrite (account_tracked _ _ _ _ _ _ _ _ Hf) in Hj. simpl in Hj.
    unfold credited in Hj.
    destruct (find_or_create_user_cases getpwuid (users st) u) as [i0 x0 Hfind|Hnone Hfull|Hnone Hroom].
    + destruct (decide (i0 = j)) as [->|Hne].
      * by rewrite list_lookup_alter_eq, Hn in Hj.
      * by rewrite list_lookup_alter_ne, Hn in Hj.
    + congruence.
    + apply lookup_ge_None in Hn.
      destruct (decide (j = length (users st))) as [->|Hne].
      * rewrite list_lookup_alter_eq in Hj.
        rewrite lookup_app_r, Nat.sub_diag in Hj by lia. simpl in Hj.
        injection Hj as <-. simpl. rewrite Z.eqb_refl. by rewrite wrap64_add_r.
      * rewrite list_lookup_alter_ne in Hj by done.
        apply lookup_lt_Some in Hj. rewrite length_app in Hj. simpl in Hj. lia.
  - rewrite (account_untracked _ _ _ _ _ _ Hf) in Hj. simpl in Hj.
    rewrite (find_or_create_user_new getpwuid _ u j x Hj Hn). simpl.
    by rewrite Z.eqb_refl.
Qed.

(** An entry that adds ticks for [u] leaves a record of [u] in the table,
    unless the table is full. *)
Lemma entry_delta_credited st e u :
  entry_delta u st e ≠ 0 →
  (∃ i y, users (scan_entry getpwuid st e) !! i = Some y ∧ uid y = u) ∨
  MAX_USERS ≤ Z.of_nat (length (users st)).
Proof.
  unfold entry_delta, scan_entry.
  destruct (observe e) as [[[[p u'] ut] stt]|]; [|done].
  destruct (Z.eqb_spec u' u) as [->|]; [|done].
  destruct (find_proc_info (proc_info st) p) as [[i pi]|] eqn:Hf; [|done].
  intros _. rewrite (account_tracked _ _ _ _ _ _ _ _ Hf). simpl.
  set (d := wrap64 _).
  destruct (find_or_create_user_cases getpwuid (users st) u) as [i0 x0 Hfind|Hnone Hfull|Hnone Hroom].
  - left. rewrite (credited_owner _ _ _ _ _ _ Hfind).
    apply list_find_Some in Hfind as (Hi0 & Hu0 & _).
    exists i0, (add_cpu_time d x0). by rewrite list_lookup_alter_eq, Hi0.
  - by right.
  - left. unfold credited, find_or_create_user. rewrite Hnone.
    destruct (Z.leb_spec MAX_USERS (Z.of_nat (length (users st)))); [lia|]. simpl.
    exists (length (users st)), (add_cpu_time d (fresh_user getpwuid u)).
    rewrite list_lookup_alter_eq, lookup_app_r, Nat.sub_diag by lia. done.
Qed.

Lemma scan_entry_full_length st e :
  MAX_USERS ≤ Z.of_nat (length (users st)) →
  length (users (scan_entry getpwuid st e)) = length (users st).
Proof.
  intros Hfull. unfold scan_entry.
  destruct (observe e) as [[[[p u] ut] stt]|]; [|done].
  destruct (find_or_create_user_full getpwuid (users st) u Hfull) as [Hsame _].
  destruct (find_proc_info (proc_info st) p) as [[i pi]|] eqn:Hf.
  - rewrite (account_tracked _ _ _ _ _ _ _ _ Hf). simpl.
    by rewrite credited_length, Hsame.
  - rewrite (account_untracked _ _ _ _ _ _ Hf). simpl. by rewrite Hsame.
Qed.

Lemma scan_full_length es : ∀ st,
  MAX_USERS ≤ Z.of_nat (length (users st)) →
  length (users (foldl (scan_entry getpwuid) st es)) = length (users st).
Proof.
  induction es as [|e es IH]; intros st Hfull; simpl; [done|].
  rewrite IH; rewrite scan_entry_full_length; done.
Qed.

(** One scan: a record that appears during the scan holds, at its end,
    the sum of what the entries of the scan add for its uid. *)
Lemma scan_new es : ∀ st j x,
  users_unique st → users_in_range st →
  users st !! j = None → users (foldl (scan_entry getpwuid) st es) !! j = Some x →
  cpu_time x = wrap64 (scan_delta getpwuid (uid x) st es).
Proof.
  induction es as [|e es IH]; intros st j x Hnd Hr Hn Hj; simpl in *; [congruence|].
  pose proof (scan_entry_unique getpwuid st e Hnd) as Hnd1.
  pose proof (scan_entry_in_range getpwuid st e Hr) as Hr1.
  destruct (users (scan_entry getpwuid st e) !! j) as [x1|] eqn:Hj1.
  - pose proof (scan_entry_new st e j x1 Hn Hj1) as Hc1.
    destruct (scan_slot es _ j x1 Hnd1 Hr1 Hj1) as (x2 & Hj2 & Hu2 & _ & Hc2).
    rewrite Hj in Hj2. injection Hj2 as <-.
    rewrite Hc2, Hc1, Hu2, wrap64_add_l. done.
  - rewrite (IH _ j x Hnd1 Hr1 Hj1 Hj).
    destruct (decide (entry_delta (uid x) st e = 0)) as [->|Hd]; [done|].
    exfalso. destruct (entry_delta_credited st e (uid x) Hd) as [(i & y & Hi & Hu)|Hfull].
    + destruct (scan_slot es _ i y Hnd1 Hr1 Hi) as (y' & Hi' & Hu' & _).
      assert (i = j) as ->.
      { eapply (unique_slot _ i j y' x); [by apply scan_fold_unique|done..|congruence]. }
      congruence.
    + pose proof (scan_full_length (e :: es) st Hfull) as Hlen. simpl in Hlen.
      apply lookup_lt_Some in Hj. apply lookup_ge_None in Hn. lia.
Qed.

End PerUserTotals.

Section TickByTick.

Context (h : host).

(** C7, as the code has it. From one sampling tick to the next every user
    record keeps its slot, its uid and its name, and its total becomes the
    old total plus the deltas the tick adds for that user, all of them
    non-negative, modulo 2^64: it stays within 0 .. 2^64-1 in every run, it
    does not decrease on a tick on which that user's own sum fits in 64
    bits, and it does decrease when that sum wraps around once.  A record
    is created with zero ticks: one that appears during a tick holds just
    what that tick adds for its user, and after the baseline scan every
    total is zero. *)
Theorem cpu_time_monotone_unless_wrap n j :
  (∀ x, users (sampled h n).1.1 !! j = Some x →
     let d := tick_delta (getpwuid h) (uid x) (sampled h n).1.1 (proc h (S n)) in
     0 ≤ cpu_time x < 2 ^ 64 ∧ 0 ≤ d ∧
     ∃ x', users (sampled h (S n)).1.1 !! j = Some x' ∧
           uid x' = uid x ∧ username x' = username x ∧
           cpu_time x' = (cpu_time x + d) `mod` 2 ^ 64 ∧
           0 ≤ cpu_time x' < 2 ^ 64 ∧
           (cpu_time x + d < 2 ^ 64 → cpu_time x ≤ cpu_time x') ∧
           (2 ^ 64 ≤ cpu_time x + d → d < 2 ^ 64 → cpu_time x' < cpu_time x)) ∧
  (∀ x', users (sampled h n).1.1 !! j = None →
     users (sampled h (S n)).1.1 !! j = Some x' →
     let d := tick_delta (getpwuid h) (uid x') (sampled h n).1.1 (proc h (S n)) in
     0 ≤ d ∧ cpu_time x' = (0 + d) `mod` 2 ^ 64) ∧
  (∀ x, users (sampled h 0).1.1 !! j = Some x → cpu_time x = 0).
Proof.
  assert (users_unique (sampled h n).1.1) as Hnd.
  { apply (sampled_invariant h users_unique);
      [constructor | apply init_entry_unique | apply scan_entry_unique]. }
  pose proof (sampled_in_range h n) as Hr.
  split_and!.
  - intros x Hj d.
    pose proof (Forall_lookup_1 _ _ _ _ Hr Hj) as Hx. simpl in Hx.
    assert (0 ≤ d) as Hd.
    { unfold d, tick_delta. destruct (proc h (S n)); [apply scan_delta_nonneg|done]. }
    split; [done|]. split; [done|].
    assert (∃ x', users (sampled h (S n)).1.1 !! j = Some x' ∧
                  uid x' = uid x ∧ username x' = username x ∧
                  cpu_time x' = wrap64 (cpu_time x + d)) as (x' & Hj' & Hu & Hname & Hc).
    { rewrite sampled_S. unfold d, tick_delta.
      destruct (proc h (S n)) as [es|]; simpl.
      - by apply scan_slot.
      - exists x. split_and!; try done. rewrite Z.add_0_r. symmetry. by apply wrap64_small. }
    exists x'. unfold wrap64, ULLONG_MOD in Hc.
    pose proof (Z.mod_pos_bound (cpu_time x + d) (2 ^ 64) ltac:(done)).
    split_and!; try done; try lia.
    + intros Hfit. rewrite Hc, Z.mod_small by lia. lia.
    + intros Hwrap Hd64. rewrite Hc.
      replace (cpu_time x + d) with (cpu_time x + d - 2 ^ 64 + 1 * 2 ^ 64) by lia.
      rewrite Z.mod_add by done. rewrite Z.mod_small by lia. lia.
  - intros x' Hn Hj' d.
    assert (0 ≤ d) as Hd.
    { unfold d, tick_delta. destruct (proc h (S n)); [apply scan_delta_nonneg|done]. }
    split; [done|]. rewrite Z.add_0_l.
    rewrite sampled_S in Hj'. unfold d, tick_delta.
    destruct (proc h (S n)) as [es|]; simpl in Hj'; [|congruence].
    by apply (scan_new (getpwuid h) es _ j x').
  - intros x Hj. unfold sampled in Hj. simpl in Hj.
    by apply (initialize_new_users_zero (getpwuid h) initial_state (proc h 0%nat) j x).
Qed.

End TickByTick.

Lemma cpu_time_monotone_unless_wrap_witness :
  users (sampled busy_host 0).1.1 !! 0%nat
  = Some {| uid := 7; username := "alice"; cpu_time := 0 |} ∧
  tick_delta (getpwuid busy_host) 7 (sampled busy_host 0).1.1 (proc busy_host 1) = 7 ∧
  0 + 7 < 2 ^ 64 ∧
  ∃ x', users (sampled busy_host 1).1.1 !! 0%nat = Some x' ∧
        uid x' = 7 ∧ username x' = "alice"%string ∧ cpu_time x' = 7 ∧
        0 ≤ cpu_time x'.
Proof.
  split; [reflexivity|]. split; [reflexivity|]. split; [lia|].
  destruct (proj1 (cpu_time_monotone_unless_wrap busy_host 0 0)
              {| uid := 7; username := "alice"; cpu_time := 0 |} eq_refl)
    as (_ & _ & x' & Hj & Hu & Hname & Hc & Hle & _).
  exists x'. split; [exact Hj|]. split; [exact Hu|]. split; [exact Hname|].
  split; [exact Hc|]. exact (proj1 Hle).
Defined.

(** ** Invocation and the run it starts *)

Section Invocation.

Context `{Qsort} (h : host).

(** The monitor loop makes its scans one after the other, each on the
    tables the one before left. *)
Lemma sampled_after_scans n : sampled h n = (after_scans h n, errors_after h n, n).
Proof.
  induction n as [|n IH]; [done|].
  unfold sampled in *. rewrite monitor_loop_snoc, IH. done.
Qed.

Lemma chars_app (a b : string) : chars (a +:+ b) = chars a ++ chars b.
Proof. induction a as [|c a IH]; simpl; [done|]. by rewrite <- IH. Qed.

Lemma pretty_unsigned (n : Z) : 0 < n → is_unsigned (chars (pretty n)) = true.
Proof.
  intros Hn. destruct n as [|p|p]; try lia.
  unfold pretty, pretty_Z, pretty, pretty_positive, pretty, pretty_N.
  rewrite decide_False by done.
  destruct (pretty_starts_with_digit (N.pos p) "") as (c & t & Hc & Hd); [lia|].
  pose proof (pretty_N_go_digits (N.pos p) "" eq_refl) as Hall.
  rewrite Hc in *. done.
Qed.

(** [atoi] reads the number an argument starts with and ignores what
    follows it. *)
Lemma atoi_leading_number (n : Z) (junk : string) :
  0 < n < 2 ^ 31 → at_non_digit (chars junk) → atoi (pretty n +:+ junk) = n.
Proof.
  intros Hn Hjunk.
  pose proof (pretty_unsigned n ltac:(lia)) as Hu.
  pose proof (scan_number_unsigned (chars (pretty n)) [] Hu I) as Hd.
  rewrite app_nil_r, scan_number_pretty in Hd by lia. injection Hd as Hd.
  unfold atoi. fold (chars (pretty n +:+ junk)).
  rewrite chars_app, scan_number_unsigned, <- Hd by done.
  unfold strtol_val, to_int, LONG_MAX, LONG_MIN.
  rewrite Z.min_r, Z.max_r by lia. rewrite Z.mod_small by lia. lia.
Qed.

(** C8, as the code has it. A wrong argument count, and a duration that
    [atoi] reads as zero or negative (in particular an argument that no
    decimal number starts, which [atoi] reads as 0), end the program with
    status 1 and one message on the error stream before any scan.  Every
    other invocation, an argument that starts with a positive number and
    goes on with other characters included, makes the baseline scan and
    then exactly [atoi] of the argument scans, one after the other, reports
    the tables they leave, and ends with status 0, whatever the per-process
    reads give. *)
Theorem main_exit_behaviour (argv : list string) :
  let o := main h argv in
  (length argv ≠ 2%nat →
     exit_status o = 1 ∧ scans o = 0%nat ∧ stdout o = [] ∧
     stderr o = [("Usage: " +:+ default "(null)" (head argv)
                  +:+ " <duration_seconds>")%string] ∧
     final o = initial_state) ∧
  (∀ argv0 arg, argv = [argv0; arg] → atoi arg ≤ 0 →
     exit_status o = 1 ∧ scans o = 0%nat ∧ stdout o = [] ∧
     stderr o = ["Error: duration must be a positive integer"%string] ∧
     final o = initial_state) ∧
  (∀ argv0 arg, argv = [argv0; arg] → no_leading_number arg = true →
     atoi arg = 0 ∧ exit_status o = 1 ∧ scans o = 0%nat) ∧
  (∀ argv0 arg, argv = [argv0; arg] → 0 < atoi arg →
     let n := Z.to_nat (atoi arg) in
     let report := print_summary (clock h) (users (after_scans h n)) in
     exit_status o = 0 ∧ scans o = n ∧
     stderr o = errors_after h n ∧ stdout o = report.2 ∧
     final o = {| users := report.1; proc_info := proc_info (after_scans h n) |}) ∧
  (∀ argv0 n junk, argv = [argv0; pretty n +:+ junk] →
     0 < n < 2 ^ 31 → at_non_digit (chars junk) →
     atoi (pretty n +:+ junk) = n ∧ exit_status o = 0 ∧ scans o = Z.to_nat n).
Proof.
  intros o. subst o. split_and!.
  - intros Hlen. destruct argv as [|a0 [|a1 [|a2 rest]]]; simpl in *; done.
  - intros a0 arg -> Hle.
    unfold main. destruct (Z.leb_spec (atoi arg) 0); [done|lia].
  - intros a0 arg -> Hn. pose proof (atoi_no_leading_number arg Hn) as H0.
    split; [done|]. unfold main. rewrite H0. done.
  - intros a0 arg -> Hd. rewrite main_runs by done.
    rewrite sampled_after_scans. done.
  - intros a0 n junk -> Hn Hjunk.
    pose proof (atoi_leading_number n junk Hn Hjunk) as Ha.
    split; [done|]. rewrite main_runs by lia. simpl. by rewrite Ha.
Qed.

End Invocation.

(** C8 fails as stated: the argument "2abc" is not a number, yet [atoi]
    reads it as 2, and the program makes its two scans and ends with
    status 0. *)
Lemma non_numeric_duration_counterexample :
  ¬ (∀ (h : host) argv0 arg,
       non_numeric arg = true →
       exit_status (main h [argv0; arg]) ≠ 0 ∧ scans (main h [argv0; arg]) = 0%nat).
Proof.
  intros Hclaim.
  destruct (Hclaim steady_host "monitor"%string "2abc"%string eq_refl) as [Hexit _].
  by apply Hexit.
Qed.

(** ** Whole runs *)

(** The end-to-end example of the specification: user 7 ends with 7 ticks,
    reported as 70 ms. *)
Example end_to_end_report :
  stdout (main steady_host ["monitor"; "2"]%string) = [Header; Rule; Row 1 "7" 70] ∧
  exit_status (main steady_host ["monitor"; "2"]%string) = 0 ∧
  render (Row 1 "7" 70) = "1    7              70"%string.
Proof. by vm_compute. Qed.

Example no_usage_report :
  stdout (main steady_host ["monitor"; "0"]%string) = [] ∧
  (print_summary 100 [{| uid := 7; username := "7"; cpu_time := 0 |}]).2
  = [Header; Rule; NoUsage].
Proof. by vm_compute. Qed.

Example main_rejects_bad_invocations :
  exit_status (main steady_host ["monitor"]%string) = 1 ∧
  exit_status (main steady_host ["monitor"; "1"; "2"]%string) = 1 ∧
  exit_status (main steady_host ["monitor"; "0"]%string) = 1 ∧
  exit_status (main steady_host ["monitor"; "-3"]%string) = 1 ∧
  exit_status (main steady_host ["monitor"; "abc"]%string) = 1 ∧
  stderr (main steady_host ["monitor"; "abc"]%string)
  = ["Error: duration must be a positive integer"%string] ∧
  stderr (main steady_host ["monitor"]%string)
  = ["Usage: monitor <duration_seconds>"%string].
Proof. by vm_compute. Qed.

(** An argument that starts with a positive number is read as that
    number, whatever follows it. *)
Example main_accepts_leading_number :
  exit_status (main steady_host ["monitor"; "2abc"]%string) = 0 ∧
  scans (main steady_host ["monitor"; "2abc"]%string) = 2%nat ∧
  scans (main steady_host ["monitor"; "1.5"]%string) = 1%nat ∧
  scans (main steady_host ["monitor"; "3 apples"]%string) = 3%nat ∧
  non_numeric "2abc" = true ∧ non_numeric "1.5" = true ∧
  non_numeric "3 apples" = true ∧ non_numeric "-3" = false.
Proof. by vm_compute. Qed.

(** A run in which every per-process read fails still makes its scans. *)
Example unreadable_host_still_runs :
  let h := {| sysconf_clk_tck := -1; getpwuid := no_passwd;
              proc := λ _, Some [{| d_name := "10"; status := None; stat := None |}] |} in
  exit_status (main h ["monitor"; "3"]%string) = 0 ∧
  scans (main h ["monitor"; "3"]%string) = 3%nat ∧
  stdout (main h ["monitor"; "3"]%string) = [Header; Rule; NoUsage].
Proof. by vm_compute. Qed.
